(** * Robot.py: light sensors and drive primitives of the FLL robot

    A shallow embedding of [src/Robot.py] (classes [LightSensor] and [Robot])
    and the properties of its calibration, steering, driving, turning and
    line-following code.

    Modelling conventions.

    - Numbers.  Python numbers are modelled as exact rationals [Q]; a decimal
      literal is the rational it denotes ([.25] is [1/4], [51.9] is
      [519/10], [3.14] is [314/100]).  Rounding and overflow of the
      machine's floating point are outside the model.  Equality of numbers
      is [Qeq] ([==]).
    - Hardware.  The gyro, the right motor's angle counter, the colour
      sensors and the stopwatch are read by polling.  Each device is an
      oracle [nat -> reading] ([Env]): the [i]-th call of the device's read
      method returns the oracle's value at [i].  The state counts the calls
      made so far, so two reads in one loop pass may return different values,
      as on the real robot.  Every method that needs a timer makes its own
      [StopWatch()]; the oracle [stopwatch] gives what the [i]-th call of
      [time()] returns, on whichever stopwatch it is made.
    - Effects.  Methods are functions [World -> outcome A]: a small state
      monad whose outcome is a normal return, a raised exception
      ([ZeroDivisionError]) or a loop that is still running when its
      budget of passes ([fuel]) is spent.  Every motor command is appended
      to [log], and each motor keeps the last command it was given.
    - [math.sin] is a parameter of [drive]. *)

From Stdlib Require Import QArith Qabs Qminmax Lqa Lia List Bool Arith.
Import ListNotations.

Local Open Scope Q_scope.

(** ** Python arithmetic *)

(** [min(a, b)]: the first argument unless the second is strictly smaller. *)
Definition pymin (a b : Q) : Q := if Qlt_le_dec b a then b else a.

(** [math.copysign(x, y)]: magnitude of [x], sign of [y] (zero counts as
    positive; there is no negative zero among the rationals). *)
Definition copysign (x y : Q) : Q := if Qlt_le_dec y 0 then - Qabs x else Qabs x.

(** [a < b], [a > b], [a <= b], [a >= b] as Python booleans. *)
Definition ltb (a b : Q) : bool := if Qlt_le_dec a b then true else false.
Definition gtb (a b : Q) : bool := ltb b a.
Definition leb (a b : Q) : bool := negb (ltb b a).
Definition geb (a b : Q) : bool := leb b a.

(** [sum(t)] for a 3-tuple: [((0 + r) + g) + b]. *)
Definition sum3 (t : Q * Q * Q) : Q := let '(r, g, b) := t in 0 + r + g + b.

(** ** Devices *)

(** [pybricks.parameters.Stop]. *)
Inductive Stop := COAST | BRAKE | HOLD.

(** The four motors the robot owns (ports D, A, C, B). *)
Inductive MotorId := FrontMotor | RearMotor | LeftMotor | RightMotor.

(** The two light sensors (ports S3, S2). *)
Inductive SensorId := LeftSensor | RightSensor.

(** What a motor was last told to do. *)
Inductive MotorMode :=
| Idle
| Running (speed : Q)
| Stopped (brake : Stop).

(** A motor: its current mode and the values given to [reset_angle]. *)
Record Motor := mkMotor { mode : MotorMode; resets : list Q }.

Definition newMotor : Motor := mkMotor Idle [].

(** Commands sent to the motors, in the order they are issued. *)
Inductive Cmd :=
| CRun (m : MotorId) (speed : Q)
| CStop (m : MotorId) (brake : Stop)
| CResetAngle (m : MotorId) (angle : Q).

(** Python exceptions the modelled code can raise. *)
Inductive Exn := ZeroDivisionError.

(** The thresholds of a [LightSensor]. *)
Record LightSensor := mkLightSensor { black : Q; white : Q; line : Q }.

(** [LightSensor.__init__(port, low, high)]. *)
Definition LightSensor_init (low high : Q) : LightSensor :=
  {| black := low + (high - low) * (25 # 100);
     white := low + (high - low) * (8 # 10);
     line  := low + (high - low) * (5 # 10) |}.

(** The contents of [sensorpoints.py]. *)
Record CalibrationRecord := mkCalibration
  { leftLow : Q; rightLow : Q; leftHigh : Q; rightHigh : Q }.

(** The line [turn] prints: the target angle and the gyro reading. *)
Record TurnReport := mkTurnReport { turning_to : Q; gyro_now : Q }.

(** The polled hardware: the value each read call returns, by call number. *)
Record Env := mkEnv
  { gyro_angle : nat -> Q;              (* gyroSensor.angle() *)
    rightMotor_angle : nat -> Q;        (* rightMotor.angle() *)
    rgb : SensorId -> nat -> Q * Q * Q; (* <sensor>.rgb() *)
    stopwatch : nat -> Q }.             (* timer.time(), milliseconds *)

(** The [Robot] object. *)
Record Robot := mkRobot
  { frontMotor : Motor; rearMotor : Motor; leftMotor : Motor; rightMotor : Motor;
    leftSensor : LightSensor; rightSensor : LightSensor }.

(** The whole state: the robot, how many reads each device has served, the
    motor commands issued, the console and the calibration file. *)
Record World := mkWorld
  { robot : Robot;
    gyro_reads : nat;
    angle_reads : nat;
    left_reads : nat;
    right_reads : nat;
    timer_reads : nat;
    log : list Cmd;
    console : list TurnReport;
    sensorpoints : option CalibrationRecord }.

Definition getMotor (m : MotorId) (r : Robot) : Motor :=
  match m with
  | FrontMotor => frontMotor r
  | RearMotor => rearMotor r
  | LeftMotor => leftMotor r
  | RightMotor => rightMotor r
  end.

Definition setMotor (m : MotorId) (x : Motor) (r : Robot) : Robot :=
  match m with
  | FrontMotor => mkRobot x (rearMotor r) (leftMotor r) (rightMotor r) (leftSensor r) (rightSensor r)
  | RearMotor => mkRobot (frontMotor r) x (leftMotor r) (rightMotor r) (leftSensor r) (rightSensor r)
  | LeftMotor => mkRobot (frontMotor r) (rearMotor r) x (rightMotor r) (leftSensor r) (rightSensor r)
  | RightMotor => mkRobot (frontMotor r) (rearMotor r) (leftMotor r) x (leftSensor r) (rightSensor r)
  end.

Definition getSensor (i : SensorId) (r : Robot) : LightSensor :=
  match i with
  | LeftSensor => leftSensor r
  | RightSensor => rightSensor r
  end.

Definition sensor_reads (i : SensorId) (w : World) : nat :=
  match i with
  | LeftSensor => left_reads w
  | RightSensor => right_reads w
  end.

(** ** The monad *)

Inductive outcome (A : Type) :=
| Done (a : A) (w : World)       (* returned [a] *)
| Raised (e : Exn) (w : World)   (* propagated exception *)
| Looping (w : World).           (* a loop used up its passes *)
Arguments Done {A} a w.
Arguments Raised {A} e w.
Arguments Looping {A} w.

Definition M (A : Type) : Type := World -> outcome A.

Definition ret {A} (a : A) : M A := fun w => Done a w.

Definition bind {A B} (m : M A) (k : A -> M B) : M B :=
  fun w =>
    match m w with
    | Done a w' => k a w'
    | Raised e w' => Raised e w'
    | Looping w' => Looping w'
    end.

Definition raise {A} (e : Exn) : M A := fun w => Raised e w.

Declare Scope robot_scope.
Delimit Scope robot_scope with robot.
Notation "x <- m ;; k" := (bind m (fun x => k))
  (at level 61, m at next level, right associativity) : robot_scope.
Notation "m ;; k" := (bind m (fun _ => k))
  (at level 61, right associativity) : robot_scope.
Local Open Scope robot_scope.

(** The state an outcome ends in. *)
Definition final {A} (o : outcome A) : World :=
  match o with
  | Done _ w => w
  | Raised _ w => w
  | Looping w => w
  end.

(** [while cond: body], with the local variables of the loop in [x].
    [fuel] bounds the number of times the condition is evaluated. *)
Fixpoint while {L : Type} (fuel : nat) (cond : L -> M bool) (body : L -> M L)
    (x : L) : M L :=
  match fuel with
  | O => fun w => Looping w
  | S n =>
      b <- cond x ;;
      if b then (x' <- body x ;; while n cond body x') else ret x
  end.

(** ** Primitive device operations *)

Definition upd_robot (f : Robot -> Robot) (w : World) : World :=
  mkWorld (f (robot w)) (gyro_reads w) (angle_reads w) (left_reads w)
          (right_reads w) (timer_reads w) (log w) (console w) (sensorpoints w).

Definition emit (c : Cmd) (w : World) : World :=
  mkWorld (robot w) (gyro_reads w) (angle_reads w) (left_reads w)
          (right_reads w) (timer_reads w) (log w ++ [c]) (console w) (sensorpoints w).

(** [motor.run(speed)]. *)
Definition Motor_run (m : MotorId) (speed : Q) : M unit :=
  fun w =>
    let mo := getMotor m (robot w) in
    Done tt (emit (CRun m speed)
               (upd_robot (setMotor m (mkMotor (Running speed) (resets mo))) w)).

(** [motor.stop(brakeType)]. *)
Definition Motor_stop (m : MotorId) (brake : Stop) : M unit :=
  fun w =>
    let mo := getMotor m (robot w) in
    Done tt (emit (CStop m brake)
               (upd_robot (setMotor m (mkMotor (Stopped brake) (resets mo))) w)).

(** [motor.reset_angle(angle)]. *)
Definition Motor_reset_angle (m : MotorId) (angle : Q) : M unit :=
  fun w =>
    let mo := getMotor m (robot w) in
    Done tt (emit (CResetAngle m angle)
               (upd_robot (setMotor m (mkMotor (mode mo) (resets mo ++ [angle]))) w)).

Section Program.

Variable E : Env.
Variable sin : Q -> Q.

(** [self.gyroSensor.angle()]. *)
Definition gyro_read : M Q :=
  fun w =>
    Done (gyro_angle E (gyro_reads w))
      (mkWorld (robot w) (S (gyro_reads w)) (angle_reads w) (left_reads w)
         (right_reads w) (timer_reads w) (log w) (console w) (sensorpoints w)).

(** [self.rightMotor.angle()]. *)
Definition rightMotor_read : M Q :=
  fun w =>
    Done (rightMotor_angle E (angle_reads w))
      (mkWorld (robot w) (gyro_reads w) (S (angle_reads w)) (left_reads w)
         (right_reads w) (timer_reads w) (log w) (console w) (sensorpoints w)).

(** [timer.time()]. *)
Definition timer_time : M Q :=
  fun w =>
    Done (stopwatch E (timer_reads w))
      (mkWorld (robot w) (gyro_reads w) (angle_reads w) (left_reads w)
         (right_reads w) (S (timer_reads w)) (log w) (console w) (sensorpoints w)).

(** [<sensor>.rgb()]. *)
Definition rgb_read (i : SensorId) : M (Q * Q * Q) :=
  fun w =>
    Done (rgb E i (sensor_reads i w))
      (match i with
       | LeftSensor =>
           mkWorld (robot w) (gyro_reads w) (angle_reads w) (S (left_reads w))
             (right_reads w) (timer_reads w) (log w) (console w) (sensorpoints w)
       | RightSensor =>
           mkWorld (robot w) (gyro_reads w) (angle_reads w) (left_reads w)
             (S (right_reads w)) (timer_reads w) (log w) (console w) (sensorpoints w)
       end).

(** [print("turning to: ", angle, "  gyro: ", g)]. *)
Definition print_turn (angle g : Q) : M unit :=
  fun w =>
    Done tt
      (mkWorld (robot w) (gyro_reads w) (angle_reads w) (left_reads w)
         (right_reads w) (timer_reads w) (log w)
         (console w ++ [mkTurnReport angle g]) (sensorpoints w)).

(** Writing [sensorpoints.py]. *)
Definition write_sensorpoints (c : CalibrationRecord) : M unit :=
  fun w =>
    Done tt
      (mkWorld (robot w) (gyro_reads w) (angle_reads w) (left_reads w)
         (right_reads w) (timer_reads w) (log w) (console w) (Some c)).

(** A threshold of one of the robot's sensors, e.g. [followSensor.line]. *)
Definition threshold (f : LightSensor -> Q) (i : SensorId) : M Q :=
  fun w => Done (f (getSensor i (robot w))) w.

(** ** class LightSensor *)

(** [light(self)]: the sum of the three colour channels. *)
Definition light (i : SensorId) : M Q :=
  t <- rgb_read i ;; ret (sum3 t).

(** [isWhite(self)]. *)
Definition isWhite (i : SensorId) : M bool :=
  l <- light i ;;
  wh <- threshold white i ;;
  if geb l wh then ret true else ret false.

(** [isBlack(self)]. *)
Definition isBlack (i : SensorId) : M bool :=
  l <- light i ;;
  bl <- threshold black i ;;
  if leb l bl then ret true else ret false.

(** [waitForWhite(self)]: [while not self.isWhite(): pass]. *)
Definition waitForWhite (fuel : nat) (i : SensorId) : M unit :=
  while fuel (fun _ => b <- isWhite i ;; ret (negb b)) (fun _ => ret tt) tt.

(** [waitForBlack(self)]: [while not self.isBlack(): pass]. *)
Definition waitForBlack (fuel : nat) (i : SensorId) : M unit :=
  while fuel (fun _ => b <- isBlack i ;; ret (negb b)) (fun _ => ret tt) tt.

(** [waitForLine(self)]. *)
Definition waitForLine (fuel : nat) (i : SensorId) : M unit :=
  waitForWhite fuel i ;; waitForBlack fuel i.

(** ** class Robot *)

(** [stop(self, brakeType=Stop.HOLD)]. *)
Definition stop (brakeType : Stop) : M unit :=
  Motor_stop RightMotor brakeType ;;
  Motor_stop LeftMotor brakeType.

(** The two wheel speeds [moveSteering] computes. *)
Definition leftMotorSpeed (steering speed : Q) : Q :=
  speed * pymin 1 ((2 # 100) * steering + 1).
Definition rightMotorSpeed (steering speed : Q) : Q :=
  speed * pymin 1 (- (2 # 100) * steering + 1).

(** [moveSteering(self, steering, speed)]. *)
Definition moveSteering (steering speed : Q) : M unit :=
  Motor_run LeftMotor (leftMotorSpeed steering speed) ;;
  Motor_run RightMotor (rightMotorSpeed steering speed).

(** Python's [a / b]. *)
Definition pydiv (a b : Q) : M Q :=
  if Qeq_bool b 0 then raise ZeroDivisionError else ret (a / b).

(** The condition of [drive]'s loop.  [&] evaluates both operands. *)
Definition drive_cond (rotation time : Q) : M bool :=
  a <- rightMotor_read ;;
  t <- timer_time ;;
  ret (ltb (Qabs a) (Qabs rotation) && ltb t (time * 1000)).

(** The body of [drive]'s loop. *)
Definition drive_body (startDegrees rotation speed kSteering : Q) : M unit :=
  currentDegrees <- gyro_read ;;
  let errorGyro := currentDegrees - startDegrees in
  a <- rightMotor_read ;;
  q <- pydiv (Qabs a) rotation ;;
  let rampSpeed := pymin (sin (q * (314 # 100))) (Qabs speed - 100) in
  moveSteering (errorGyro * kSteering * copysign 1 speed)
               (rampSpeed * speed + copysign 100 speed).

(** [drive(self, distance, speed, time=20, kSteering=1)]. *)
Definition drive (fuel : nat) (distance speed time kSteering : Q) : M unit :=
  startDegrees <- gyro_read ;;
  let '(distance, speed) :=
    if ltb distance 0 then (Qabs distance, - speed) else (distance, speed) in
  let rotation := distance * (519 # 10) in
  Motor_reset_angle RightMotor 0 ;;
  while fuel (fun _ => drive_cond rotation time)
             (fun _ => drive_body startDegrees rotation speed kSteering) tt ;;
  stop HOLD.

(** The condition of [turn]'s loop. *)
Definition turn_cond (angle time : Q) : M bool :=
  g <- gyro_read ;;
  t <- timer_time ;;
  ret (gtb (Qabs (g - angle)) 0 && ltb t (time * 1000)).

(** The body of [turn]'s loop ([steering = 100], [kTurn = 0.01],
    [offset = 20]). *)
Definition turn_body (angle speed : Q) : M unit :=
  g <- gyro_read ;;
  let error := g - angle in
  moveSteering 100 (speed * error * (1 # 100) + copysign 20 error).

(** [turn(self, angle, speed, time=5)]. *)
Definition turn (fuel : nat) (angle speed time : Q) : M unit :=
  while fuel (fun _ => turn_cond angle time) (fun _ => turn_body angle speed) tt ;;
  stop HOLD ;;
  g <- gyro_read ;;
  print_turn angle g.

(** [kSide]: [1] when following on the right side, [-1] otherwise. *)
Definition kSide (rightSide : bool) : Q := if rightSide then 1 else -1.

(** The sensors [lineFollow2Line] picks: (follow, stop). *)
Definition pick_sensors (useRightSensor : bool) : SensorId * SensorId :=
  if useRightSensor then (RightSensor, LeftSensor) else (LeftSensor, RightSensor).

(** The steering [lineFollow2Line] passes to [moveSteering] in one pass. *)
Definition lineFollow2Line_steering (line_ light_ lastError k : Q) : Q :=
  let error := line_ - light_ in
  let pCorrection := error * (25 # 100) in
  let dError := lastError - error in
  let dCorrection := dError * (125 # 100) in
  (pCorrection - dCorrection) * k.

(** One pass of [lineFollow2Line]'s loop; returns the new [lastError]. *)
Definition lineFollow2Line_body (followSensor : SensorId) (k speed lastError : Q) : M Q :=
  ln <- threshold line followSensor ;;
  l <- light followSensor ;;
  let error := ln - l in
  moveSteering (lineFollow2Line_steering ln l lastError k) speed ;;
  ret error.

(** [lineFollow2Line(self, speed, rightSide=True, useRightSensor=True)];
    returns the final value of [lastError]. *)
Definition lineFollow2Line (fuel : nat) (speed : Q) (rightSide useRightSensor : bool) : M Q :=
  let '(followSensor, stopSensor) := pick_sensors useRightSensor in
  lastError <- while fuel (fun _ => b <- isWhite stopSensor ;; ret (negb b))
                 (lineFollow2Line_body followSensor (kSide rightSide) speed) 0 ;;
  stop HOLD ;;
  ret lastError.

(** The steering [lineFollow4Time] passes to [moveSteering] in one pass. *)
Definition lineFollow4Time_steering (line_ light_ lastError k : Q) : Q :=
  let error := line_ - light_ in
  let pCorrection := error * (25 # 100) in
  let dError := lastError - error in
  let dCorrection := dError * (12 # 10) in
  (pCorrection - dCorrection) * k.

(** One pass of [lineFollow4Time]'s loop; returns the new [lastError]. *)
Definition lineFollow4Time_body (followSensor : SensorId) (k speed lastError : Q) : M Q :=
  ln <- threshold line followSensor ;;
  l <- light followSensor ;;
  let error := ln - l in
  moveSteering (lineFollow4Time_steering ln l lastError k) speed ;;
  ret error.

(** [lineFollow4Time(self, speed, time, rightSide=True, useRightSensor=True)];
    returns the final value of [lastError]. *)
Definition lineFollow4Time (fuel : nat) (speed time : Q) (rightSide useRightSensor : bool) : M Q :=
  let followSensor := if useRightSensor then RightSensor else LeftSensor in
  lastError <- while fuel (fun _ => t <- timer_time ;; ret (ltb t (time * 1000)))
                 (lineFollow4Time_body followSensor (kSide rightSide) speed) 0 ;;
  stop HOLD ;;
  ret lastError.

(** [turn2Line(self, speed, useRightSensor=True, time=5)]. *)
Definition turn2Line (fuel : nat) (speed : Q) (useRightSensor : bool) (time : Q) : M unit :=
  let stopSensor := if useRightSensor then RightSensor else LeftSensor in
  moveSteering 100 speed ;;
  waitForLine fuel stopSensor ;;
  stop HOLD.

(** [drive2Line(self, speed, distanceBefore, distanceAfter, useRightSensor=True)]. *)
Definition drive2Line (fuel : nat) (speed distanceBefore distanceAfter : Q)
    (useRightSensor : bool) : M unit :=
  let stopSensor := if useRightSensor then RightSensor else LeftSensor in
  drive fuel distanceBefore speed 20 1 ;;
  moveSteering 0 ((5 # 10) * speed) ;;
  waitForLine fuel stopSensor ;;
  stop HOLD ;;
  drive fuel distanceAfter speed 20 1.

(** The local variables of [calibrate]'s loop. *)
Record Bounds := mkBounds { bRightHigh : Q; bRightLow : Q; bLeftHigh : Q; bLeftLow : Q }.

(** One pass of [calibrate]'s loop.  Each [if] reads the sensor for the
    test and, when the test holds, again for the assignment. *)
Definition calibrate_body (b : Bounds) : M Bounds :=
  r1 <- light RightSensor ;;
  rh <- (if gtb r1 (bRightHigh b) then light RightSensor else ret (bRightHigh b)) ;;
  r2 <- light RightSensor ;;
  rl <- (if ltb r2 (bRightLow b) then light RightSensor else ret (bRightLow b)) ;;
  l1 <- light LeftSensor ;;
  lh <- (if gtb l1 (bLeftHigh b) then light LeftSensor else ret (bLeftHigh b)) ;;
  l2 <- light LeftSensor ;;
  ll <- (if ltb l2 (bLeftLow b) then light LeftSensor else ret (bLeftLow b)) ;;
  ret (mkBounds rh rl lh ll).

(** [calibrate(self)]. *)
Definition calibrate (fuel : nat) : M unit :=
  let seeds := mkBounds 40 70 40 70 in
  moveSteering 0 125 ;;
  b <- while fuel (fun _ => t <- timer_time ;; ret (ltb t 5000)) calibrate_body seeds ;;
  stop HOLD ;;
  write_sensorpoints (mkCalibration (bLeftLow b) (bRightLow b) (bLeftHigh b) (bRightHigh b)).

End Program.

(** [Robot.__init__(self)]: fresh motors, the sensors built from
    [sensorpoints.py] when it exists and from the default bounds otherwise,
    and one gyro angle read before the gyro is reset. *)
Definition Robot_init (E : Env) (file : option CalibrationRecord) : World :=
  let sensors :=
    match file with
    | Some c => (LightSensor_init (leftLow c) (leftHigh c),
                 LightSensor_init (rightLow c) (rightHigh c))
    | None => (LightSensor_init 10 105, LightSensor_init 20 160)
    end in
  final (gyro_read E
    (mkWorld (mkRobot newMotor newMotor newMotor newMotor (fst sensors) (snd sensors))
       0 0 0 0 0 [] [] file)).

(** ** Concrete hardware used in the examples *)

(** A stand-in for [math.sin] where its value does not matter. *)
Definition sin_id (x : Q) : Q := x.

(** Hardware for the examples: the gyro shows [10 * k] degrees during pass
    [k] of a loop that reads it twice per pass (after the one read of
    [Robot.__init__]), the right wheel never moves, both sensors return
    light 30 and 90 on alternate calls, and every stopwatch read is one
    second after the previous one. *)
Definition bench : Env :=
  {| gyro_angle := fun i => inject_Z (10 * Z.of_nat ((i - 1) / 2));
     rightMotor_angle := fun _ => 0;
     rgb := fun _ i => if Nat.even i then (10, 10, 10) else (30, 30, 30);
     stopwatch := fun i => inject_Z (1000 * Z.of_nat i) |}.

(** The same hardware with a stopwatch that advances 10 ms per read. *)
Definition bench_fast : Env :=
  {| gyro_angle := gyro_angle bench;
     rightMotor_angle := rightMotor_angle bench;
     rgb := rgb bench;
     stopwatch := fun i => inject_Z (10 * Z.of_nat i) |}.

(** Hardware whose sensors always return light 30. *)
Definition bench_dark : Env :=
  {| gyro_angle := gyro_angle bench;
     rightMotor_angle := rightMotor_angle bench;
     rgb := fun _ _ => (10, 10, 10);
     stopwatch := stopwatch bench |}.

(** Hardware whose sensors always return light 150. *)
Definition bench_bright : Env :=
  {| gyro_angle := gyro_angle bench;
     rightMotor_angle := rightMotor_angle bench;
     rgb := fun _ _ => (50, 50, 50);
     stopwatch := stopwatch bench |}.

(** Hardware whose gyro and stopwatch are stuck at 0. *)
Definition bench_stuck : Env :=
  {| gyro_angle := fun _ => 0;
     rightMotor_angle := rightMotor_angle bench;
     rgb := rgb bench;
     stopwatch := fun _ => 0 |}.

(** Hardware whose gyro gains 10 degrees at every read (after the one read
    of [Robot.__init__]), with the one-second stopwatch of [bench]. *)
Definition bench_per_read : Env :=
  {| gyro_angle := fun i => inject_Z (10 * Z.of_nat (i - 1));
     rightMotor_angle := rightMotor_angle bench;
     rgb := rgb bench;
     stopwatch := stopwatch bench |}.

(** The robot as constructed on each of them, without a calibration file. *)
Definition bench_robot : World := Robot_init bench None.
Definition bench_fast_robot : World := Robot_init bench_fast None.
Definition bench_dark_robot : World := Robot_init bench_dark None.
Definition bench_bright_robot : World := Robot_init bench_bright None.

(** ** The control law as the specification words it *)

(** The per-tick PD law of the specification:
    [error = line - light], [pCorrection = 0.25 * error],
    [dCorrection = 1.2 * (previousError - error)],
    steering [(pCorrection - dCorrection) * sideSign]. *)
Definition spec_pd_steering (line_ light_ previousError sideSign : Q) : Q :=
  let error := line_ - light_ in
  let pCorrection := (25 # 100) * error in
  let dCorrection := (12 # 10) * (previousError - error) in
  (pCorrection - dCorrection) * sideSign.

(** ** Vocabulary of the statements *)

(** The motor a command is addressed to. *)
Definition cmd_motor (c : Cmd) : MotorId :=
  match c with
  | CRun m _ => m
  | CStop m _ => m
  | CResetAngle m _ => m
  end.

Definition is_drive_motor (m : MotorId) : bool :=
  match m with
  | LeftMotor | RightMotor => true
  | FrontMotor | RearMotor => false
  end.

(** [w'] comes from [w] by commands to the left and right motors only: the
    front and rear motors are as they were, and every command added to the
    log is addressed to a drive motor. *)
Definition drive_motors_only (w w' : World) : Prop :=
  frontMotor (robot w') = frontMotor (robot w) /\
  rearMotor (robot w') = rearMotor (robot w) /\
  exists cs, log w' = log w ++ cs /\
             forallb (fun c => is_drive_motor (cmd_motor c)) cs = true.

(** A computation that touches the drive motors only, however it ends. *)
Definition frames {A} (m : M A) : Prop :=
  forall w, drive_motors_only w (final (m w)).

(** The state after [n] more reads of sensor [i]. *)
Definition after_polls (i : SensorId) (n : nat) (w : World) : World :=
  match i with
  | LeftSensor =>
      mkWorld (robot w) (gyro_reads w) (angle_reads w) (n + left_reads w)
        (right_reads w) (timer_reads w) (log w) (console w) (sensorpoints w)
  | RightSensor =>
      mkWorld (robot w) (gyro_reads w) (angle_reads w) (left_reads w)
        (n + right_reads w) (timer_reads w) (log w) (console w) (sensorpoints w)
  end.

(** The light sensor [i] returns at its [k]-th read from now. *)
Definition light_at (E : Env) (i : SensorId) (w : World) (k : nat) : Q :=
  sum3 (rgb E i (k + sensor_reads i w)).

(** Whether that reading classifies as white, as black. *)
Definition white_at (E : Env) (i : SensorId) (w : World) (k : nat) : bool :=
  geb (light_at E i w k) (white (getSensor i (robot w))).
Definition black_at (E : Env) (i : SensorId) (w : World) (k : nat) : bool :=
  leb (light_at E i w k) (black (getSensor i (robot w))).

(** At the [k]-th evaluation of [turn]'s loop condition from now, the
    heading error is exactly zero or the timeout has elapsed.  The loop
    reads the gyro twice per pass (condition, body) and the stopwatch once. *)
Definition turn_exit (E : Env) (angle time : Q) (w : World) (k : nat) : Prop :=
  gyro_angle E (2 * k + gyro_reads w) - angle == 0 \/
  time * 1000 <= stopwatch E (k + timer_reads w).

(** A gyro that starts at 0 and gains [step] degrees per pass of [turn]'s
    loop: both reads of pass [j] (condition, body) return [step * j]. *)
Definition ticking_gyro (E : Env) (w : World) (step : Z) : Prop :=
  forall j : nat,
    gyro_angle E (2 * j + gyro_reads w) == inject_Z (step * Z.of_nat j) /\
    gyro_angle E (2 * j + 1 + gyro_reads w) == inject_Z (step * Z.of_nat j).

(** ** Vocabulary of the further properties *)

(** Both drive motors are stopped with HOLD braking. *)
Definition held (w : World) : Prop :=
  mode (leftMotor (robot w)) = Stopped HOLD /\
  mode (rightMotor (robot w)) = Stopped HOLD.

(** A computation that leaves the component [f] of the state as it was,
    however it ends. *)
Definition keeps {T A : Type} (f : World -> T) (m : M A) : Prop :=
  forall w, f (final (m w)) = f w.

(** The thresholds of both light sensors. *)
Definition thresholds (w : World) : LightSensor * LightSensor :=
  (leftSensor (robot w), rightSensor (robot w)).

(** How often each light sensor has been read. *)
Definition light_reads (w : World) : nat * nat := (left_reads w, right_reads w).

(** A computation that neither raises nor runs out of passes. *)
Definition returns {A : Type} (m : M A) : Prop :=
  forall w, exists a w', m w = Done a w'.

(** A computation that does not raise. *)
Definition no_raise {A : Type} (m : M A) : Prop :=
  forall w e w', m w <> Raised e w'.

(** The wheel rotation [drive] aims at: 51.9 degrees per unit of distance. *)
Definition rotation_target (distance : Q) : Q := Qabs distance * (519 # 10).


(** At the [k]-th read of the stopwatch from now, [limit] ms have elapsed. *)
Definition timed_out (E : Env) (limit : Q) (w : World) (k : nat) : Prop :=
  limit <= stopwatch E (k + timer_reads w).

(** A stand-in for [math.sin] that stays within [-1, 1]. *)
Definition sin_clamp (x : Q) : Q :=
  if Qlt_le_dec x (-1) then -1 else if Qlt_le_dec 1 x then 1 else x.

(** Hardware whose sensors always return light 60 and whose stopwatch gains
    one second per read. *)
Definition bench_grey : Env :=
  {| gyro_angle := gyro_angle bench;
     rightMotor_angle := rightMotor_angle bench;
     rgb := fun _ _ => (20, 20, 20);
     stopwatch := stopwatch bench |}.

(** Hardware whose right wheel gains 100 degrees per read, with the gyro
    and the one-second stopwatch of [bench]. *)
Definition bench_rolling : Env :=
  {| gyro_angle := gyro_angle bench;
     rightMotor_angle := fun i => inject_Z (100 * Z.of_nat i);
     rgb := rgb bench;
     stopwatch := stopwatch bench |}.

(** The modes of the two drive motors. *)
Definition drive_modes (w : World) : MotorMode * MotorMode :=
  (mode (leftMotor (robot w)), mode (rightMotor (robot w))).

(** A computation that, when it returns, leaves both drive motors held. *)
Definition ends_held {A : Type} (m : M A) : Prop :=
  forall w a w', m w = Done a w' -> held w'.



(** The bounds one pass of [calibrate]'s loop leaves when the right sensor
    reads [r] and the left sensor [l] throughout the pass. *)
Definition steady_pass (r l : Q) (b : Bounds) : Bounds :=
  mkBounds (if gtb r (bRightHigh b) then r else bRightHigh b)
           (if ltb r (bRightLow b) then r else bRightLow b)
           (if gtb l (bLeftHigh b) then l else bLeftHigh b)
           (if ltb l (bLeftLow b) then l else bLeftLow b).

(** What [calibrate] has touched besides the sensors and the file. *)
Definition calibrate_frame (w : World) : nat * list Cmd * (MotorMode * MotorMode) :=
  (timer_reads w, log w, drive_modes w).

(** How often the gyro and the right wheel's angle have been read. *)
Definition motion_reads (w : World) : nat * nat := (gyro_reads w, angle_reads w).

(** ** Comparison lemmas *)

Lemma ltb_true (a b : Q) : ltb a b = true <-> a < b.
Proof.
  unfold ltb. destruct (Qlt_le_dec a b) as [H | H]; split; intro H'; try easy.
  exfalso. apply (Qlt_irrefl a). apply Qlt_le_trans with b; assumption.
Qed.

Lemma ltb_false (a b : Q) : ltb a b = false <-> b <= a.
Proof.
  unfold ltb. destruct (Qlt_le_dec a b) as [H | H]; split; intro H'; try easy.
  exfalso. apply (Qlt_irrefl a). apply Qlt_le_trans with b; assumption.
Qed.

Lemma gtb_true (a b : Q) : gtb a b = true <-> b < a.
Proof. apply ltb_true. Qed.

Lemma gtb_false (a b : Q) : gtb a b = false <-> a <= b.
Proof. apply ltb_false. Qed.

Lemma leb_true (a b : Q) : leb a b = true <-> a <= b.
Proof. unfold leb. rewrite negb_true_iff. apply ltb_false. Qed.

Lemma leb_false (a b : Q) : leb a b = false <-> b < a.
Proof. unfold leb. rewrite negb_false_iff. apply ltb_true. Qed.

Lemma geb_true (a b : Q) : geb a b = true <-> b <= a.
Proof. apply leb_true. Qed.

Lemma geb_false (a b : Q) : geb a b = false <-> a < b.
Proof. apply leb_false. Qed.

Lemma pymin_le_l (a b : Q) : pymin a b <= a.
Proof. unfold pymin. destruct (Qlt_le_dec b a); lra. Qed.

Lemma pymin_le_r (a b : Q) : pymin a b <= b.
Proof. unfold pymin. destruct (Qlt_le_dec b a); lra. Qed.

Lemma pymin_cases (a b : Q) :
  (b < a /\ pymin a b = b) \/ (a <= b /\ pymin a b = a).
Proof. unfold pymin. destruct (Qlt_le_dec b a); [left | right]; split; auto. Qed.

(** ** LightSensor thresholds *)

(** C4. For every [low < high], [LightSensor(low, high)] has
    [black = low + 0.25*(high-low)], [line = low + 0.5*(high-low)],
    [white = low + 0.8*(high-low)], and
    [low <= black <= line <= white <= high]. *)
Theorem LightSensor_init_thresholds (low high : Q) :
  low < high ->
  let s := LightSensor_init low high in
  black s == low + (25 # 100) * (high - low) /\
  line s == low + (5 # 10) * (high - low) /\
  white s == low + (8 # 10) * (high - low) /\
  low <= black s /\ black s <= line s /\ line s <= white s /\ white s <= high.
Proof.
  intros H s. unfold s, LightSensor_init. cbn [black white line].
  repeat split; try ring; lra.
Qed.

Lemma LightSensor_init_thresholds_default :
  10 < 120 /\
  let s := LightSensor_init 10 120 in
  black s == 10 + (25 # 100) * (120 - 10) /\
  line s == 10 + (5 # 10) * (120 - 10) /\
  white s == 10 + (8 # 10) * (120 - 10) /\
  10 <= black s /\ black s <= line s /\ line s <= white s /\ white s <= 120.
Proof.
  split.
  - reflexivity.
  - apply (LightSensor_init_thresholds 10 120). reflexivity.
Defined.

(** ** moveSteering *)

Lemma Qabs_scale_le (s f : Q) : -1 <= f -> f <= 1 -> Qabs (s * f) <= Qabs s.
Proof.
  intros Hlo Hhi. rewrite Qabs_Qmult.
  assert (Hf : Qabs f <= 1) by (apply Qabs_Qle_condition; split; lra).
  assert (Hs : 0 <= Qabs s) by apply Qabs_nonneg.
  assert (Hf0 : 0 <= Qabs f) by apply Qabs_nonneg.
  nra.
Qed.

Lemma leftMotorSpeed_pos (steering s : Q) :
  0 < steering -> leftMotorSpeed steering s == s.
Proof.
  intros H. unfold leftMotorSpeed.
  destruct (pymin_cases 1 ((2 # 100) * steering + 1)) as [[H1 _] | [_ ->]].
  - lra.
  - ring.
Qed.

Lemma rightMotorSpeed_pos (steering s : Q) :
  0 < steering -> rightMotorSpeed steering s == s * (1 - (2 # 100) * steering).
Proof.
  intros H. unfold rightMotorSpeed.
  destruct (pymin_cases 1 (- (2 # 100) * steering + 1)) as [[_ ->] | [H1 _]].
  - ring.
  - lra.
Qed.

(** C3, as the code has it. For every [steering > 0]: with a base speed
    [s >= 0] the left wheel is commanded at least as fast as the right one,
    and with [steering <= 100] (any [s]) neither commanded speed exceeds
    [|s|] in magnitude. *)
Theorem moveSteering_right_turn (steering s : Q) :
  0 < steering ->
  (0 <= s -> rightMotorSpeed steering s <= leftMotorSpeed steering s) /\
  (steering <= 100 ->
   Qabs (leftMotorSpeed steering s) <= Qabs s /\
   Qabs (rightMotorSpeed steering s) <= Qabs s).
Proof.
  intros H.
  pose proof (leftMotorSpeed_pos steering s H) as HL.
  pose proof (rightMotorSpeed_pos steering s H) as HR.
  split.
  - intros Hs. rewrite HL, HR. nra.
  - intros H100. rewrite HL, HR. split.
    + lra.
    + apply Qabs_scale_le; lra.
Qed.

Lemma moveSteering_right_turn_at_50_100 :
  0 < 50 /\ 0 <= 100 /\ 50 <= 100 /\
  rightMotorSpeed 50 100 <= leftMotorSpeed 50 100 /\
  Qabs (leftMotorSpeed 50 100) <= Qabs 100 /\
  Qabs (rightMotorSpeed 50 100) <= Qabs 100.
Proof.
  assert (H0 : 0 < 50) by reflexivity.
  assert (H1 : 0 <= 100) by (intro H; discriminate H).
  assert (H2 : 50 <= 100) by (intro H; discriminate H).
  destruct (moveSteering_right_turn 50 100 H0) as [Hord Hmag].
  exact (conj H0 (conj H1 (conj H2
           (conj (Hord H1) (conj (proj1 (Hmag H2)) (proj2 (Hmag H2))))))).
Defined.

(** C3 as stated fails: backing up ([s = -100]) with [steering = 10] the
    left wheel gets [-100] and the right one [-80], so left < right; and
    with [steering = 200], [s = 100] the right wheel gets [-300], three
    times the base speed. *)
Lemma moveSteering_right_turn_fails :
  (0 < 10 /\ ~ rightMotorSpeed 10 (-100) <= leftMotorSpeed 10 (-100)) /\
  (0 < 200 /\ ~ Qabs (rightMotorSpeed 200 100) <= Qabs 100).
Proof.
  repeat split; try reflexivity; vm_compute; intro H; apply H; reflexivity.
Qed.

(** ** The PD law of the two line followers *)

(** C1, as the code has it. [lineFollow4Time] steers by the law of the
    specification (derivative gain 1.2); [lineFollow2Line] steers by the same
    law with derivative gain 1.25.  The two commands differ by
    [0.05 * (previousError - error) * sideSign], so they agree exactly when
    the error did not change since the previous pass.  In both loops one
    pass reads the follow sensor once, hands that steering to
    [moveSteering] and stores [error] as the new [lastError]. *)
Theorem lineFollow_pd_laws (E : Env) (followSensor : SensorId)
    (rightSide : bool) (speed lastError : Q) (w : World) :
  let k := kSide rightSide in
  let ln := line (getSensor followSensor (robot w)) in
  let l := sum3 (rgb E followSensor (sensor_reads followSensor w)) in
  let error := ln - l in
  let s2 := lineFollow2Line_steering ln l lastError k in
  let s4 := lineFollow4Time_steering ln l lastError k in
  s4 == spec_pd_steering ln l lastError k /\
  s2 == ((25 # 100) * error - (125 # 100) * (lastError - error)) * k /\
  s4 - s2 == (5 # 100) * (lastError - error) * k /\
  (s2 == s4 <-> lastError == error) /\
  (exists w2, lineFollow2Line_body E followSensor k speed lastError w = Done error w2 /\
     log w2 = log w ++ [CRun LeftMotor (leftMotorSpeed s2 speed);
                        CRun RightMotor (rightMotorSpeed s2 speed)] /\
     sensor_reads followSensor w2 = S (sensor_reads followSensor w)) /\
  (exists w4, lineFollow4Time_body E followSensor k speed lastError w = Done error w4 /\
     log w4 = log w ++ [CRun LeftMotor (leftMotorSpeed s4 speed);
                        CRun RightMotor (rightMotorSpeed s4 speed)] /\
     sensor_reads followSensor w4 = S (sensor_reads followSensor w)).
Proof.
  intros k ln l error s2 s4.
  assert (Hd : s4 - s2 == (5 # 100) * (lastError - error) * k).
  { unfold s4, s2, lineFollow4Time_steering, lineFollow2Line_steering, error. ring. }
  assert (Hk : k == 1 \/ k == -1).
  { unfold k, kSide. destruct rightSide; [left | right]; reflexivity. }
  split; [| split; [| split; [| split; [| split]]]].
  - unfold s4, lineFollow4Time_steering, spec_pd_steering. ring.
  - unfold s2, lineFollow2Line_steering, error. ring.
  - exact Hd.
  - split; intro H.
    + destruct Hk as [Hk | Hk]; rewrite Hk in Hd; lra.
    + destruct Hk as [Hk | Hk]; rewrite Hk in Hd; lra.
  - unfold lineFollow2Line_body, light, moveSteering, bind, threshold, rgb_read,
      Motor_run, ret.
    eexists. split; [reflexivity |]. split.
    + destruct followSensor; cbn; rewrite <- app_assoc; reflexivity.
    + destruct followSensor; reflexivity.
  - unfold lineFollow4Time_body, light, moveSteering, bind, threshold, rgb_read,
      Motor_run, ret.
    eexists. split; [reflexivity |]. split.
    + destruct followSensor; cbn; rewrite <- app_assoc; reflexivity.
    + destruct followSensor; reflexivity.
Qed.

(** C1 as stated fails: with [line = 50], a reading of 70 and
    [previousError = 0] on the right side, [lineFollow2Line] steers by [-30]
    where [lineFollow4Time] and the law of the specification steer by
    [-29]. *)
Lemma lineFollow_pd_laws_differ :
  lineFollow2Line_steering 50 70 0 (kSide true) == -30 /\
  lineFollow4Time_steering 50 70 0 (kSide true) == -29 /\
  spec_pd_steering 50 70 0 (kSide true) == -29 /\
  ~ lineFollow2Line_steering 50 70 0 (kSide true)
    == lineFollow4Time_steering 50 70 0 (kSide true).
Proof.
  repeat split; try reflexivity. intro H; discriminate H.
Qed.

(** ** Blocking waits of LightSensor *)

Lemma after_polls_S (i : SensorId) (n : nat) (w : World) :
  after_polls i n (after_polls i 1 w) = after_polls i (S n) w.
Proof. destruct i; unfold after_polls; cbn; rewrite Nat.add_succ_r; reflexivity. Qed.

Lemma white_at_S (E : Env) (i : SensorId) (w : World) (k : nat) :
  white_at E i (after_polls i 1 w) k = white_at E i w (S k).
Proof.
  unfold white_at, light_at. destruct i; cbn; rewrite Nat.add_succ_r; reflexivity.
Qed.

Lemma black_at_S (E : Env) (i : SensorId) (w : World) (k : nat) :
  black_at E i (after_polls i 1 w) k = black_at E i w (S k).
Proof.
  unfold black_at, light_at. destruct i; cbn; rewrite Nat.add_succ_r; reflexivity.
Qed.

Lemma isWhite_run (E : Env) (i : SensorId) (w : World) :
  isWhite E i w = Done (white_at E i w 0) (after_polls i 1 w).
Proof.
  unfold isWhite, light, bind, rgb_read, threshold, ret, white_at, light_at.
  destruct i; cbn; match goal with |- context [geb ?a ?b] => destruct (geb a b) end;
    reflexivity.
Qed.

Lemma isBlack_run (E : Env) (i : SensorId) (w : World) :
  isBlack E i w = Done (black_at E i w 0) (after_polls i 1 w).
Proof.
  unfold isBlack, light, bind, rgb_read, threshold, ret, black_at, light_at.
  destruct i; cbn; match goal with |- context [leb ?a ?b] => destruct (leb a b) end;
    reflexivity.
Qed.

(** One unfolding of a polling loop [while not test(): pass]. *)
Lemma poll_step (test : M bool) (n : nat) (w w1 : World) (b : bool) :
  test w = Done b w1 ->
  while (S n) (fun _ : unit => (t <- test ;; ret (negb t))) (fun _ => ret tt) tt w =
  if b then Done tt w1
  else while n (fun _ : unit => (t <- test ;; ret (negb t))) (fun _ => ret tt) tt w1.
Proof.
  intros H. cbn [while]. unfold bind at 1. unfold bind at 1. rewrite H.
  unfold ret at 1. destruct b; reflexivity.
Qed.

Section Waits.

Variable E : Env.
Variable i : SensorId.

Lemma waitForWhite_returns (k : nat) :
  forall (fuel : nat) (w : World),
    (forall j, (j < k)%nat -> white_at E i w j = false) ->
    white_at E i w k = true ->
    (k < fuel)%nat ->
    waitForWhite E fuel i w = Done tt (after_polls i (S k) w).
Proof.
  induction k as [| k IH]; intros fuel w Hbefore Hk Hfuel;
    (destruct fuel as [| fuel]; [lia |]);
    unfold waitForWhite; rewrite (poll_step _ _ _ _ _ (isWhite_run E i w)).
  - rewrite Hk. reflexivity.
  - rewrite (Hbefore 0%nat) by lia.
    fold (waitForWhite E fuel i (after_polls i 1 w)).
    rewrite IH.
    + rewrite after_polls_S. reflexivity.
    + intros j Hj. rewrite white_at_S. apply Hbefore. lia.
    + rewrite white_at_S. exact Hk.
    + lia.
Qed.

Lemma waitForWhite_blocks (fuel : nat) :
  forall w : World,
    (forall k, white_at E i w k = false) ->
    waitForWhite E fuel i w = Looping (after_polls i fuel w).
Proof.
  induction fuel as [| fuel IH]; intros w Hnever.
  - destruct i, w; reflexivity.
  - unfold waitForWhite. rewrite (poll_step _ _ _ _ _ (isWhite_run E i w)).
    rewrite Hnever. fold (waitForWhite E fuel i (after_polls i 1 w)).
    rewrite IH.
    + rewrite after_polls_S. reflexivity.
    + intros k. rewrite white_at_S. apply Hnever.
Qed.

Lemma waitForWhite_first (fuel : nat) :
  forall (w w' : World),
    waitForWhite E fuel i w = Done tt w' ->
    exists k, (k < fuel)%nat /\ w' = after_polls i (S k) w /\
              white_at E i w k = true /\
              forall j, (j < k)%nat -> white_at E i w j = false.
Proof.
  induction fuel as [| fuel IH]; intros w w' Hrun.
  - discriminate Hrun.
  - unfold waitForWhite in Hrun.
    rewrite (poll_step _ _ _ _ _ (isWhite_run E i w)) in Hrun.
    destruct (white_at E i w 0) eqn:H0.
    + exists 0%nat. injection Hrun as <-. repeat split; [lia | exact H0 | lia].
    + fold (waitForWhite E fuel i (after_polls i 1 w)) in Hrun.
      destruct (IH _ _ Hrun) as (k & Hk & Hw' & Hwhite & Hbefore).
      exists (S k). rewrite after_polls_S in Hw'. rewrite white_at_S in Hwhite.
      repeat split; [lia | exact Hw' | exact Hwhite |].
      intros [| j] Hj; [exact H0 |].
      rewrite <- white_at_S. apply Hbefore. lia.
Qed.

Lemma waitForBlack_returns (k : nat) :
  forall (fuel : nat) (w : World),
    (forall j, (j < k)%nat -> black_at E i w j = false) ->
    black_at E i w k = true ->
    (k < fuel)%nat ->
    waitForBlack E fuel i w = Done tt (after_polls i (S k) w).
Proof.
  induction k as [| k IH]; intros fuel w Hbefore Hk Hfuel;
    (destruct fuel as [| fuel]; [lia |]);
    unfold waitForBlack; rewrite (poll_step _ _ _ _ _ (isBlack_run E i w)).
  - rewrite Hk. reflexivity.
  - rewrite (Hbefore 0%nat) by lia.
    fold (waitForBlack E fuel i (after_polls i 1 w)).
    rewrite IH.
    + rewrite after_polls_S. reflexivity.
    + intros j Hj. rewrite black_at_S. apply Hbefore. lia.
    + rewrite black_at_S. exact Hk.
    + lia.
Qed.

Lemma waitForBlack_blocks (fuel : nat) :
  forall w : World,
    (forall k, black_at E i w k = false) ->
    waitForBlack E fuel i w = Looping (after_polls i fuel w).
Proof.
  induction fuel as [| fuel IH]; intros w Hnever.
  - destruct i, w; reflexivity.
  - unfold waitForBlack. rewrite (poll_step _ _ _ _ _ (isBlack_run E i w)).
    rewrite Hnever. fold (waitForBlack E fuel i (after_polls i 1 w)).
    rewrite IH.
    + rewrite after_polls_S. reflexivity.
    + intros k. rewrite black_at_S. apply Hnever.
Qed.

Lemma waitForBlack_first (fuel : nat) :
  forall (w w' : World),
    waitForBlack E fuel i w = Done tt w' ->
    exists k, (k < fuel)%nat /\ w' = after_polls i (S k) w /\
              black_at E i w k = true /\
              forall j, (j < k)%nat -> black_at E i w j = false.
Proof.
  induction fuel as [| fuel IH]; intros w w' Hrun.
  - discriminate Hrun.
  - unfold waitForBlack in Hrun.
    rewrite (poll_step _ _ _ _ _ (isBlack_run E i w)) in Hrun.
    destruct (black_at E i w 0) eqn:H0.
    + exists 0%nat. injection Hrun as <-. repeat split; [lia | exact H0 | lia].
    + fold (waitForBlack E fuel i (after_polls i 1 w)) in Hrun.
      destruct (IH _ _ Hrun) as (k & Hk & Hw' & Hblack & Hbefore).
      exists (S k). rewrite after_polls_S in Hw'. rewrite black_at_S in Hblack.
      repeat split; [lia | exact Hw' | exact Hblack |].
      intros [| j] Hj; [exact H0 |].
      rewrite <- black_at_S. apply Hbefore. lia.
Qed.

End Waits.

(** C8. [waitForWhite] returns only at the first reading that classifies
    white, having polled the sensor up to and including that reading, and
    [waitForBlack] likewise for black.  Neither has a timeout: when no
    reading ever classifies, the loop is still polling after any number of
    reads. *)
Theorem waitFor_returns_at_first_reading (E : Env) (i : SensorId) (w : World) :
  (forall fuel w',
      waitForWhite E fuel i w = Done tt w' ->
      exists k, (k < fuel)%nat /\ w' = after_polls i (S k) w /\
                white_at E i w k = true /\
                forall j, (j < k)%nat -> white_at E i w j = false) /\
  (forall k fuel,
      (forall j, (j < k)%nat -> white_at E i w j = false) ->
      white_at E i w k = true -> (k < fuel)%nat ->
      waitForWhite E fuel i w = Done tt (after_polls i (S k) w)) /\
  ((forall k, white_at E i w k = false) ->
   forall fuel, waitForWhite E fuel i w = Looping (after_polls i fuel w)) /\
  (forall fuel w',
      waitForBlack E fuel i w = Done tt w' ->
      exists k, (k < fuel)%nat /\ w' = after_polls i (S k) w /\
                black_at E i w k = true /\
                forall j, (j < k)%nat -> black_at E i w j = false) /\
  (forall k fuel,
      (forall j, (j < k)%nat -> black_at E i w j = false) ->
      black_at E i w k = true -> (k < fuel)%nat ->
      waitForBlack E fuel i w = Done tt (after_polls i (S k) w)) /\
  ((forall k, black_at E i w k = false) ->
   forall fuel, waitForBlack E fuel i w = Looping (after_polls i fuel w)).
Proof.
  split; [| split; [| split; [| split; [| split]]]].
  - intros fuel w'. apply waitForWhite_first.
  - intros k fuel. apply waitForWhite_returns.
  - intros H fuel. apply waitForWhite_blocks, H.
  - intros fuel w'. apply waitForBlack_first.
  - intros k fuel. apply waitForBlack_returns.
  - intros H fuel. apply waitForBlack_blocks, H.
Qed.

(** On the bench the left sensor (white threshold 86, black threshold 33.75)
    reads 30, 90, 30, ...: [waitForWhite] returns at the second reading;
    [waitForBlack] on the right sensor (black threshold 55) returns at the
    first.  With readings stuck at 30 [waitForWhite] is still polling after
    7 reads, and with readings stuck at 150 so is [waitForBlack]. *)
Lemma waitFor_returns_at_first_reading_bench :
  waitForWhite bench 5 LeftSensor bench_robot
    = Done tt (after_polls LeftSensor 2 bench_robot) /\
  waitForBlack bench 5 RightSensor bench_robot
    = Done tt (after_polls RightSensor 1 bench_robot) /\
  waitForWhite bench_dark 7 LeftSensor bench_dark_robot
    = Looping (after_polls LeftSensor 7 bench_dark_robot) /\
  waitForBlack bench_bright 7 LeftSensor bench_bright_robot
    = Looping (after_polls LeftSensor 7 bench_bright_robot).
Proof.
  split; [| split; [| split]].
  - apply (proj1 (proj2 (waitFor_returns_at_first_reading bench LeftSensor bench_robot))
             1%nat 5%nat).
    + intros [| j] Hj; [reflexivity | lia].
    + reflexivity.
    + lia.
  - apply (proj1 (proj2 (proj2 (proj2 (proj2
             (waitFor_returns_at_first_reading bench RightSensor bench_robot)))))
             0%nat 5%nat).
    + intros j Hj; lia.
    + reflexivity.
    + lia.
  - apply (proj1 (proj2 (proj2
             (waitFor_returns_at_first_reading bench_dark LeftSensor bench_dark_robot)))).
    intros k. reflexivity.
  - apply (proj2 (proj2 (proj2 (proj2 (proj2
             (waitFor_returns_at_first_reading bench_bright LeftSensor
                bench_bright_robot)))))).
    intros k. reflexivity.
Defined.

(** ** Frame: the front and rear motors *)

Lemma drive_motors_only_refl (w : World) : drive_motors_only w w.
Proof.
  repeat split. exists []. split; [symmetry; apply app_nil_r | reflexivity].
Qed.

Lemma drive_motors_only_trans (w1 w2 w3 : World) :
  drive_motors_only w1 w2 -> drive_motors_only w2 w3 -> drive_motors_only w1 w3.
Proof.
  intros (Hf1 & Hr1 & cs1 & Hl1 & Hc1) (Hf2 & Hr2 & cs2 & Hl2 & Hc2).
  split; [congruence | split; [congruence |]].
  exists (cs1 ++ cs2). split.
  - rewrite Hl2, Hl1, app_assoc. reflexivity.
  - rewrite forallb_app, Hc1, Hc2. reflexivity.
Qed.

Create HintDb frame.

Lemma frames_ret {A} (a : A) : frames (ret a).
Proof. intros w. apply drive_motors_only_refl. Qed.

Lemma frames_raise {A} (e : Exn) : frames (@raise A e).
Proof. intros w. apply drive_motors_only_refl. Qed.

Lemma frames_bind {A B} (m : M A) (k : A -> M B) :
  frames m -> (forall a, frames (k a)) -> frames (bind m k).
Proof.
  intros Hm Hk w. unfold bind. specialize (Hm w).
  destruct (m w) as [a w1 | e w1 | w1]; cbn in Hm |- *; try exact Hm.
  eapply drive_motors_only_trans; [exact Hm | apply Hk].
Qed.

Lemma frames_while {L} (cond : L -> M bool) (body : L -> M L) :
  (forall x, frames (cond x)) -> (forall x, frames (body x)) ->
  forall fuel x, frames (while fuel cond body x).
Proof.
  intros Hc Hb fuel. induction fuel as [| fuel IH]; intros x.
  - intros w. apply drive_motors_only_refl.
  - cbn [while]. apply frames_bind; [apply Hc |].
    intros [|]; [| apply frames_ret].
    apply frames_bind; [apply Hb | apply IH].
Qed.

Lemma frames_if {A} (b : bool) (m1 m2 : M A) :
  frames m1 -> frames m2 -> frames (if b then m1 else m2).
Proof. destruct b; auto. Qed.

Lemma frames_read (E : Env) :
  frames (gyro_read E) /\ frames (rightMotor_read E) /\ frames (timer_time E) /\
  (forall i, frames (rgb_read E i)).
Proof.
  repeat split; try (destruct i); cbn; try reflexivity;
    exists []; (split; [symmetry; apply app_nil_r | reflexivity]).
Qed.

Lemma frames_gyro_read (E : Env) : frames (gyro_read E).
Proof. apply frames_read. Qed.

Lemma frames_rightMotor_read (E : Env) : frames (rightMotor_read E).
Proof. apply frames_read. Qed.

Lemma frames_timer_time (E : Env) : frames (timer_time E).
Proof. apply frames_read. Qed.

Lemma frames_rgb_read (E : Env) (i : SensorId) : frames (rgb_read E i).
Proof. apply frames_read. Qed.

Lemma frames_threshold (f : LightSensor -> Q) (i : SensorId) : frames (threshold f i).
Proof. intros w. apply drive_motors_only_refl. Qed.

Lemma frames_print_turn (angle g : Q) : frames (print_turn angle g).
Proof.
  intros w. repeat split. exists []. split; [symmetry; apply app_nil_r | reflexivity].
Qed.

Lemma frames_write_sensorpoints (c : CalibrationRecord) : frames (write_sensorpoints c).
Proof.
  intros w. repeat split. exists []. split; [symmetry; apply app_nil_r | reflexivity].
Qed.

Lemma frames_Motor_run (m : MotorId) (speed : Q) :
  is_drive_motor m = true -> frames (Motor_run m speed).
Proof.
  intros Hm w. destruct m; try discriminate Hm;
    (repeat split; eexists; split; reflexivity).
Qed.

Lemma frames_Motor_stop (m : MotorId) (brake : Stop) :
  is_drive_motor m = true -> frames (Motor_stop m brake).
Proof.
  intros Hm w. destruct m; try discriminate Hm;
    (repeat split; eexists; split; reflexivity).
Qed.

Lemma frames_Motor_reset_angle (m : MotorId) (angle : Q) :
  is_drive_motor m = true -> frames (Motor_reset_angle m angle).
Proof.
  intros Hm w. destruct m; try discriminate Hm;
    (repeat split; eexists; split; reflexivity).
Qed.

#[export] Hint Resolve frames_ret frames_raise frames_gyro_read
  frames_rightMotor_read frames_timer_time frames_rgb_read frames_threshold
  frames_print_turn frames_write_sensorpoints : frame.
#[export] Hint Extern 1 (frames (Motor_run _ _)) =>
  apply frames_Motor_run; reflexivity : frame.
#[export] Hint Extern 1 (frames (Motor_stop _ _)) =>
  apply frames_Motor_stop; reflexivity : frame.
#[export] Hint Extern 1 (frames (Motor_reset_angle _ _)) =>
  apply frames_Motor_reset_angle; reflexivity : frame.

(** Walks a computation down its binds, loops and conditionals. *)
Ltac frame_step :=
  match goal with
  | |- frames (bind _ _) => apply frames_bind; [| intros]
  | |- frames (while _ _ _ _) => apply frames_while; intros
  | |- frames (if _ then _ else _) => apply frames_if
  | |- frames (let '(_, _) := ?p in _) => destruct p
  | |- frames _ => solve [auto with frame]
  end.
Ltac frame := repeat frame_step.

Section Frames.

Variable E : Env.
Variable sin : Q -> Q.

Lemma frames_light (i : SensorId) : frames (light E i).
Proof. unfold light. frame. Qed.

Lemma frames_isWhite (i : SensorId) : frames (isWhite E i).
Proof. unfold isWhite, light. frame. Qed.

Lemma frames_isBlack (i : SensorId) : frames (isBlack E i).
Proof. unfold isBlack, light. frame. Qed.

Lemma frames_waitForLine (fuel : nat) (i : SensorId) : frames (waitForLine E fuel i).
Proof.
  unfold waitForLine, waitForWhite, waitForBlack. frame;
    first [apply frames_isWhite | apply frames_isBlack].
Qed.

Lemma frames_stop (brakeType : Stop) : frames (stop brakeType).
Proof. unfold stop. frame. Qed.

Lemma frames_moveSteering (steering speed : Q) : frames (moveSteering steering speed).
Proof. unfold moveSteering. frame. Qed.

Lemma frames_drive (fuel : nat) (distance speed time kSteering : Q) :
  frames (drive E sin fuel distance speed time kSteering).
Proof.
  unfold drive, drive_cond, drive_body, pydiv. frame;
    first [apply frames_stop | apply frames_moveSteering].
Qed.

Lemma frames_turn (fuel : nat) (angle speed time : Q) :
  frames (turn E fuel angle speed time).
Proof.
  unfold turn, turn_cond, turn_body. frame;
    first [apply frames_stop | apply frames_moveSteering].
Qed.

Lemma frames_lineFollow2Line (fuel : nat) (speed : Q) (rightSide useRightSensor : bool) :
  frames (lineFollow2Line E fuel speed rightSide useRightSensor).
Proof.
  unfold lineFollow2Line, lineFollow2Line_body. frame;
    first [apply frames_stop | apply frames_moveSteering | apply frames_isWhite
          | apply frames_light].
Qed.

Lemma frames_lineFollow4Time (fuel : nat) (speed time : Q) (rightSide useRightSensor : bool) :
  frames (lineFollow4Time E fuel speed time rightSide useRightSensor).
Proof.
  unfold lineFollow4Time, lineFollow4Time_body. frame;
    first [apply frames_stop | apply frames_moveSteering | apply frames_light].
Qed.

Lemma frames_turn2Line (fuel : nat) (speed : Q) (useRightSensor : bool) (time : Q) :
  frames (turn2Line E fuel speed useRightSensor time).
Proof.
  unfold turn2Line. frame;
    first [apply frames_stop | apply frames_moveSteering | apply frames_waitForLine].
Qed.

Lemma frames_drive2Line (fuel : nat) (speed distanceBefore distanceAfter : Q)
    (useRightSensor : bool) :
  frames (drive2Line E sin fuel speed distanceBefore distanceAfter useRightSensor).
Proof.
  unfold drive2Line. frame;
    first [apply frames_stop | apply frames_moveSteering | apply frames_waitForLine
          | apply frames_drive].
Qed.

Lemma frames_calibrate (fuel : nat) : frames (calibrate E fuel).
Proof.
  unfold calibrate, calibrate_body. frame;
    first [apply frames_stop | apply frames_moveSteering | apply frames_light].
Qed.

End Frames.

(** C9. Every motion operation of [Robot] commands the left and right
    motors only: however the call ends (return, exception, or still
    looping), the front and rear motors are in the state they had before
    it, and every command it issued ([run], [stop], [reset_angle]) was
    addressed to the left or the right motor. *)
Theorem motion_leaves_front_and_rear_motors (E : Env) (sin : Q -> Q)
    (fuel : nat) (w : World) :
  drive_motors_only w (final (calibrate E fuel w)) /\
  (forall steering speed,
      drive_motors_only w (final (moveSteering steering speed w))) /\
  (forall distance speed time kSteering,
      drive_motors_only w (final (drive E sin fuel distance speed time kSteering w))) /\
  (forall angle speed time,
      drive_motors_only w (final (turn E fuel angle speed time w))) /\
  (forall speed rightSide useRightSensor,
      drive_motors_only w (final (lineFollow2Line E fuel speed rightSide useRightSensor w))) /\
  (forall speed time rightSide useRightSensor,
      drive_motors_only w
        (final (lineFollow4Time E fuel speed time rightSide useRightSensor w))) /\
  (forall speed useRightSensor time,
      drive_motors_only w (final (turn2Line E fuel speed useRightSensor time w))) /\
  (forall speed distanceBefore distanceAfter useRightSensor,
      drive_motors_only w
        (final (drive2Line E sin fuel speed distanceBefore distanceAfter useRightSensor w))) /\
  (forall brakeType, drive_motors_only w (final (stop brakeType w))).
Proof.
  repeat match goal with |- _ /\ _ => split end; intros.
  - apply frames_calibrate.
  - apply frames_moveSteering.
  - apply frames_drive.
  - apply frames_turn.
  - apply frames_lineFollow2Line.
  - apply frames_lineFollow4Time.
  - apply frames_turn2Line.
  - apply frames_drive2Line.
  - apply frames_stop.
Qed.

(** ** drive *)

Lemma stop_run (brakeType : Stop) (w : World) :
  exists w', stop brakeType w = Done tt w' /\
    log w' = log w ++ [CStop RightMotor brakeType; CStop LeftMotor brakeType] /\
    mode (leftMotor (robot w')) = Stopped brakeType /\
    mode (rightMotor (robot w')) = Stopped brakeType /\
    resets (rightMotor (robot w')) = resets (rightMotor (robot w)) /\
    gyro_reads w' = gyro_reads w /\ angle_reads w' = angle_reads w /\
    left_reads w' = left_reads w /\ right_reads w' = right_reads w /\
    timer_reads w' = timer_reads w /\ console w' = console w /\
    sensorpoints w' = sensorpoints w.
Proof.
  eexists. split; [reflexivity |]. cbn. rewrite <- app_assoc.
  repeat split.
Qed.

Lemma moveSteering_run (steering speed : Q) (w : World) :
  exists w', moveSteering steering speed w = Done tt w' /\
    log w' = log w ++ [CRun LeftMotor (leftMotorSpeed steering speed);
                       CRun RightMotor (rightMotorSpeed steering speed)] /\
    gyro_reads w' = gyro_reads w /\ angle_reads w' = angle_reads w /\
    left_reads w' = left_reads w /\ right_reads w' = right_reads w /\
    timer_reads w' = timer_reads w /\ console w' = console w /\
    sensorpoints w' = sensorpoints w.
Proof.
  eexists. split; [reflexivity |]. cbn. rewrite <- app_assoc.
  repeat split.
Qed.

Lemma pydiv_nonzero (a b : Q) (w : World) :
  ~ b == 0 -> pydiv a b w = Done (a / b) w.
Proof.
  intros Hb. unfold pydiv. destruct (Qeq_bool b 0) eqn:Hz; [| reflexivity].
  exfalso. apply Hb. apply Qeq_bool_iff. exact Hz.
Qed.

Section Drive.

Variable E : Env.
Variable sin : Q -> Q.

Lemma drive_cond_run (rotation time : Q) (w : World) :
  exists w1,
    drive_cond E rotation time w =
      Done (ltb (Qabs (rightMotor_angle E (angle_reads w))) (Qabs rotation)
            && ltb (stopwatch E (timer_reads w)) (time * 1000)) w1 /\
    timer_reads w1 = S (timer_reads w) /\ angle_reads w1 = S (angle_reads w) /\
    gyro_reads w1 = gyro_reads w /\ log w1 = log w /\ robot w1 = robot w /\
    console w1 = console w.
Proof. eexists. split; [reflexivity |]. repeat split. Qed.

Lemma drive_body_run (startDegrees rotation speed kSteering : Q) (w : World) :
  ~ rotation == 0 ->
  exists w2,
    drive_body E sin startDegrees rotation speed kSteering w = Done tt w2 /\
    timer_reads w2 = timer_reads w.
Proof.
  intros Hrot. unfold drive_body, bind, gyro_read, rightMotor_read.
  rewrite pydiv_nonzero by exact Hrot.
  match goal with
  | |- context [moveSteering ?a ?b ?w0] =>
      destruct (moveSteering_run a b w0) as (w2 & -> & _ & _ & _ & _ & _ & Ht & _)
  end.
  exists w2. split; [reflexivity | exact Ht].
Qed.

(** The loop of [drive] is over by the first check that reads an elapsed
    time of [time * 1000] ms or more, whatever the wheel and the gyro do. *)
Lemma drive_loop_times_out (startDegrees rotation speed kSteering time : Q) :
  ~ rotation == 0 ->
  forall (k fuel : nat) (w : World),
    (k < fuel)%nat ->
    time * 1000 <= stopwatch E (k + timer_reads w) ->
    exists w',
      while fuel (fun _ : unit => drive_cond E rotation time)
        (fun _ => drive_body E sin startDegrees rotation speed kSteering) tt w
      = Done tt w' /\
      (timer_reads w < timer_reads w' <= S k + timer_reads w)%nat.
Proof.
  intros Hrot. induction k as [| k IH]; intros fuel w Hfuel Hclock;
    (destruct fuel as [| fuel]; [lia |]); cbn [while];
    destruct (drive_cond_run rotation time w) as (w1 & Hc & Ht1 & _);
    unfold bind at 1; rewrite Hc.
  - apply ltb_false in Hclock. cbn [Nat.add] in Hclock. rewrite Hclock, andb_false_r.
    exists w1. split; [reflexivity | lia].
  - destruct (_ && _).
    + destruct (drive_body_run startDegrees rotation speed kSteering w1 Hrot)
        as (w2 & Hb & Ht2).
      unfold bind at 1. rewrite Hb.
      destruct (IH fuel w2) as (w' & Hrun & Hbound).
      * lia.
      * rewrite Ht2, Ht1, Nat.add_succ_r. exact Hclock.
      * exists w'. split; [exact Hrun | lia].
    + exists w1. split; [reflexivity | lia].
Qed.

End Drive.

(** C7. For every distance [d > 0] and every speed (zero or not),
    [drive(d, speed, time)] returns, without raising, as soon as a loop check
    reads an elapsed time of at least [time * 1000] ms, whatever the wheel
    angle and gyro readings are: if the [k]-th check from now does, the loop
    has made at most [k] passes, and both drive motors end stopped with HOLD. *)
Theorem drive_terminates_by_timeout (E : Env) (sin : Q -> Q) (fuel k : nat)
    (d speed time kSteering : Q) (w : World) :
  0 < d ->
  time * 1000 <= stopwatch E (k + timer_reads w) ->
  (k < fuel)%nat ->
  exists w',
    drive E sin fuel d speed time kSteering w = Done tt w' /\
    (timer_reads w < timer_reads w' <= S k + timer_reads w)%nat /\
    mode (leftMotor (robot w')) = Stopped HOLD /\
    mode (rightMotor (robot w')) = Stopped HOLD.
Proof.
  intros Hd Hclock Hfuel. unfold drive.
  assert (Hneg : ltb d 0 = false) by (apply ltb_false; lra).
  rewrite Hneg.
  assert (Hrot : ~ d * (519 # 10) == 0) by lra.
  unfold bind at 1. unfold gyro_read at 1.
  unfold bind at 1. unfold Motor_reset_angle at 1.
  unfold bind at 1.
  match goal with
  | |- context [while fuel ?c ?b tt ?w0] =>
      destruct (drive_loop_times_out E sin (gyro_angle E (gyro_reads w))
                  (d * (519 # 10)) speed kSteering time Hrot k fuel w0 Hfuel)
        as (w1 & Hrun & Hbound); [exact Hclock |]
  end.
  rewrite Hrun. cbn [timer_reads emit upd_robot] in Hbound.
  destruct (stop_run HOLD w1) as (w' & Hs & _ & Hl & Hr & _ & _ & _ & _ & _ & Ht & _).
  exists w'. split; [exact Hs |]. split; [| split; assumption].
  rewrite Ht. exact Hbound.
Qed.

(** On the bench the right wheel never turns and the stopwatch gains one
    second per read: [drive(10, 200, time=2)] gives up at the third check. *)
Lemma drive_terminates_by_timeout_bench :
  0 < 10 /\
  2 * 1000 <= stopwatch bench (2 + timer_reads bench_robot) /\
  (2 < 3)%nat /\
  exists w',
    drive bench sin_id 3 10 200 2 1 bench_robot = Done tt w' /\
    (timer_reads bench_robot < timer_reads w' <= 3 + timer_reads bench_robot)%nat /\
    mode (leftMotor (robot w')) = Stopped HOLD /\
    mode (rightMotor (robot w')) = Stopped HOLD.
Proof.
  assert (H1 : 0 < 10) by reflexivity.
  assert (H2 : 2 * 1000 <= stopwatch bench (2 + timer_reads bench_robot))
    by (intro H; discriminate H).
  assert (H3 : (2 < 3)%nat) by lia.
  exact (conj H1 (conj H2 (conj H3
    (drive_terminates_by_timeout bench sin_id 3 2 10 200 2 1 bench_robot H1 H2 H3)))).
Defined.

(** C2, as the code has it. For every speed, [drive] with a distance of
    zero never enters its loop: it issues no [run] command and never
    evaluates the division of the ramp factor, so it returns without
    raising.  It is not a no-op: it reads the gyro, the wheel angle and the
    stopwatch once each, resets the right motor's angle, and stops both
    drive motors with HOLD. *)
Theorem drive_zero_distance (E : Env) (sin : Q -> Q) (fuel : nat)
    (distance speed time kSteering : Q) (w : World) :
  distance == 0 ->
  exists w',
    drive E sin (S fuel) distance speed time kSteering w = Done tt w' /\
    log w' = log w ++ [CResetAngle RightMotor 0; CStop RightMotor HOLD;
                       CStop LeftMotor HOLD] /\
    gyro_reads w' = S (gyro_reads w) /\
    angle_reads w' = S (angle_reads w) /\
    timer_reads w' = S (timer_reads w) /\
    mode (leftMotor (robot w')) = Stopped HOLD /\
    mode (rightMotor (robot w')) = Stopped HOLD /\
    resets (rightMotor (robot w')) = resets (rightMotor (robot w)) ++ [0].
Proof.
  intros Hd. unfold drive.
  assert (Hneg : ltb distance 0 = false) by (apply ltb_false; lra).
  rewrite Hneg.
  unfold bind at 1. unfold gyro_read at 1.
  unfold bind at 1. unfold Motor_reset_angle at 1.
  unfold bind at 1. cbn [while]. unfold bind at 1.
  match goal with
  | |- context [drive_cond E ?r ?t ?w0] =>
      destruct (drive_cond_run E r t w0) as (w1 & -> & Ht & Ha & Hg & Hl & Hr & _);
      assert (Hstill : ltb (Qabs (rightMotor_angle E (angle_reads w0))) (Qabs r) = false)
  end.
  { apply ltb_false.
    assert (Hz : Qabs (distance * (519 # 10)) == 0) by (rewrite Hd; reflexivity).
    rewrite Hz. apply Qabs_nonneg. }
  rewrite Hstill. cbn [andb]. unfold ret at 1.
  destruct (stop_run HOLD w1)
    as (w' & Hs & Hlog & Hml & Hmr & Hres & Hg' & Ha' & _ & _ & Ht' & _).
  exists w'. split; [exact Hs |].
  rewrite Hlog, Hl, Hg', Hg, Ha', Ha, Ht', Ht, Hres, Hr. cbn.
  rewrite <- app_assoc. repeat split; assumption.
Qed.

Lemma drive_zero_distance_bench :
  0 == 0 /\
  exists w',
    drive bench sin_id 1 0 100 20 1 bench_robot = Done tt w' /\
    log w' = log bench_robot ++ [CResetAngle RightMotor 0; CStop RightMotor HOLD;
                                 CStop LeftMotor HOLD] /\
    gyro_reads w' = S (gyro_reads bench_robot) /\
    angle_reads w' = S (angle_reads bench_robot) /\
    timer_reads w' = S (timer_reads bench_robot) /\
    mode (leftMotor (robot w')) = Stopped HOLD /\
    mode (rightMotor (robot w')) = Stopped HOLD /\
    resets (rightMotor (robot w')) = resets (rightMotor (robot bench_robot)) ++ [0].
Proof.
  assert (H0 : 0 == 0) by reflexivity.
  exact (conj H0 (drive_zero_distance bench sin_id 0 0 100 20 1 bench_robot H0)).
Defined.

(** C2 as stated fails: on a freshly constructed robot, whose motors are
    idle and whose log is empty, [drive(0, 100)] returns after issuing three
    motor commands, and leaves both drive motors held. *)
Lemma drive_zero_distance_is_not_a_noop :
  exists w',
    drive bench sin_id 1 0 100 20 1 bench_robot = Done tt w' /\
    log bench_robot = [] /\
    log w' = [CResetAngle RightMotor 0; CStop RightMotor HOLD; CStop LeftMotor HOLD] /\
    mode (leftMotor (robot bench_robot)) = Idle /\
    mode (leftMotor (robot w')) = Stopped HOLD /\
    log w' <> log bench_robot.
Proof.
  eexists. split; [vm_compute; reflexivity |].
  repeat split; try reflexivity. intro H; discriminate H.
Qed.

(** ** lineFollow2Line *)

(** C10. When the stop sensor classifies white at its very first reading,
    [lineFollow2Line] never enters its loop: the stop sensor is read once and
    the follow sensor not at all, no [run] command is issued, [lastError]
    still holds its initial [0], and the only commands are the two
    [stop(HOLD)] of the drive motors. *)
Theorem lineFollow2Line_stops_at_once (E : Env) (fuel : nat) (speed : Q)
    (rightSide useRightSensor : bool) (w : World) :
  white_at E (snd (pick_sensors useRightSensor)) w 0 = true ->
  exists w',
    lineFollow2Line E (S fuel) speed rightSide useRightSensor w = Done 0 w' /\
    log w' = log w ++ [CStop RightMotor HOLD; CStop LeftMotor HOLD] /\
    mode (leftMotor (robot w')) = Stopped HOLD /\
    mode (rightMotor (robot w')) = Stopped HOLD /\
    sensor_reads (fst (pick_sensors useRightSensor)) w'
      = sensor_reads (fst (pick_sensors useRightSensor)) w /\
    sensor_reads (snd (pick_sensors useRightSensor)) w'
      = S (sensor_reads (snd (pick_sensors useRightSensor)) w).
Proof.
  intros Hwhite. unfold lineFollow2Line.
  destruct (pick_sensors useRightSensor) as [followSensor stopSensor] eqn:Hpick.
  cbn [fst snd] in Hwhite |- *.
  cbn [while]. unfold bind at 1. unfold bind at 1. unfold bind at 1.
  rewrite isWhite_run, Hwhite. unfold ret at 1. cbn [negb]. unfold ret at 1.
  unfold bind at 1.
  destruct (stop_run HOLD (after_polls stopSensor 1 w))
    as (w' & -> & Hlog & Hml & Hmr & _ & _ & _ & Hlr & Hrr & _).
  exists w'. split; [reflexivity |].
  split; [rewrite Hlog; destruct stopSensor; reflexivity |].
  split; [exact Hml |]. split; [exact Hmr |].
  destruct useRightSensor; injection Hpick as <- <-; cbn [sensor_reads];
    rewrite ?Hlr, ?Hrr; split; reflexivity.
Qed.

(** With readings stuck at 150 both sensors are above their white
    thresholds (86 and 132). *)
Lemma lineFollow2Line_stops_at_once_bench :
  white_at bench_bright (snd (pick_sensors true)) bench_bright_robot 0 = true /\
  exists w',
    lineFollow2Line bench_bright 1 100 true true bench_bright_robot = Done 0 w' /\
    log w' = log bench_bright_robot ++ [CStop RightMotor HOLD; CStop LeftMotor HOLD] /\
    mode (leftMotor (robot w')) = Stopped HOLD /\
    mode (rightMotor (robot w')) = Stopped HOLD /\
    sensor_reads (fst (pick_sensors true)) w'
      = sensor_reads (fst (pick_sensors true)) bench_bright_robot /\
    sensor_reads (snd (pick_sensors true)) w'
      = S (sensor_reads (snd (pick_sensors true)) bench_bright_robot).
Proof.
  assert (H : white_at bench_bright (snd (pick_sensors true)) bench_bright_robot 0 = true)
    by reflexivity.
  exact (conj H (lineFollow2Line_stops_at_once bench_bright 0 100 true true
                   bench_bright_robot H)).
Defined.

(** ** turn *)

Section Turn.

Variable E : Env.
Variables angle speed time : Q.

Lemma turn_cond_run (w : World) :
  exists w1,
    turn_cond E angle time w =
      Done (gtb (Qabs (gyro_angle E (gyro_reads w) - angle)) 0
            && ltb (stopwatch E (timer_reads w)) (time * 1000)) w1 /\
    gyro_reads w1 = S (gyro_reads w) /\ timer_reads w1 = S (timer_reads w) /\
    log w1 = log w /\ console w1 = console w.
Proof. eexists. split; [reflexivity |]. repeat split. Qed.

Lemma turn_body_run (w : World) :
  exists w2,
    turn_body E angle speed w = Done tt w2 /\
    gyro_reads w2 = S (gyro_reads w) /\ timer_reads w2 = timer_reads w /\
    length (log w2) = (2 + length (log w))%nat /\ console w2 = console w.
Proof.
  unfold turn_body, bind, gyro_read.
  match goal with
  | |- context [moveSteering ?a ?b ?w0] =>
      destruct (moveSteering_run a b w0) as (w2 & -> & Hl & Hg & _ & _ & _ & Ht & Hc & _)
  end.
  exists w2. split; [reflexivity |].
  rewrite Hl, Hg, Ht, Hc, length_app. cbn. repeat split. lia.
Qed.

(** The loop condition is false exactly when the error is zero or the
    timeout has elapsed. *)
Lemma turn_cond_false (w : World) :
  gtb (Qabs (gyro_angle E (gyro_reads w) - angle)) 0
  && ltb (stopwatch E (timer_reads w)) (time * 1000) = false
  <-> turn_exit E angle time w 0.
Proof.
  unfold turn_exit. cbn [Nat.mul Nat.add].
  rewrite andb_false_iff, gtb_false, ltb_false.
  split; (intros [H | H]; [left | right; exact H]).
  - assert (H' := proj1 (Qabs_Qle_condition _ _) H). lra.
  - rewrite H. intro Hc; discriminate Hc.
Qed.

Lemma turn_exit_shift (w w2 : World) (j : nat) :
  gyro_reads w2 = S (S (gyro_reads w)) -> timer_reads w2 = S (timer_reads w) ->
  turn_exit E angle time w2 j <-> turn_exit E angle time w (S j).
Proof.
  intros Hg Ht. unfold turn_exit. rewrite Hg, Ht.
  replace (2 * j + S (S (gyro_reads w)))%nat with (2 * S j + gyro_reads w)%nat by lia.
  replace (j + S (timer_reads w))%nat with (S j + timer_reads w)%nat by lia.
  reflexivity.
Qed.

Lemma turn_loop_exits (k : nat) :
  forall (fuel : nat) (w : World),
    (forall j, (j < k)%nat -> ~ turn_exit E angle time w j) ->
    turn_exit E angle time w k ->
    (k < fuel)%nat ->
    exists w',
      while fuel (fun _ : unit => turn_cond E angle time)
        (fun _ => turn_body E angle speed) tt w = Done tt w' /\
      gyro_reads w' = (2 * k + 1 + gyro_reads w)%nat /\
      timer_reads w' = (S k + timer_reads w)%nat /\
      length (log w') = (2 * k + length (log w))%nat /\
      console w' = console w.
Proof.
  induction k as [| k IH]; intros fuel w Hbefore Hk Hfuel;
    (destruct fuel as [| fuel]; [lia |]); cbn [while];
    destruct (turn_cond_run w) as (w1 & Hc & Hg1 & Ht1 & Hl1 & Hc1);
    unfold bind at 1; rewrite Hc.
  - rewrite (proj2 (turn_cond_false w) Hk).
    exists w1. split; [reflexivity |]. rewrite Hg1, Ht1, Hl1, Hc1.
    repeat split.
  - destruct (_ && _) eqn:Hb.
    + destruct (turn_body_run w1) as (w2 & Hbody & Hg2 & Ht2 & Hl2 & Hc2).
      unfold bind at 1. rewrite Hbody.
      assert (Hg : gyro_reads w2 = S (S (gyro_reads w))) by congruence.
      assert (Ht : timer_reads w2 = S (timer_reads w)) by congruence.
      destruct (IH fuel w2) as (w' & Hrun & Hg' & Ht' & Hl' & Hc').
      * intros j Hj Hex. apply (Hbefore (S j)); [lia |].
        apply (turn_exit_shift w w2 j Hg Ht). exact Hex.
      * apply (turn_exit_shift w w2 k Hg Ht). exact Hk.
      * lia.
      * exists w'. split; [exact Hrun |].
        rewrite Hg', Ht', Hl', Hc', Hg, Ht, Hl2, Hl1, Hc2, Hc1.
        repeat split; lia.
    + exfalso. apply (Hbefore 0%nat); [lia |]. apply turn_cond_false. exact Hb.
Qed.

Lemma turn_loop_never_exits (fuel : nat) :
  forall w : World,
    (forall j, ~ turn_exit E angle time w j) ->
    exists w',
      while fuel (fun _ : unit => turn_cond E angle time)
        (fun _ => turn_body E angle speed) tt w = Looping w'.
Proof.
  induction fuel as [| fuel IH]; intros w Hnever.
  - exists w. reflexivity.
  - cbn [while].
    destruct (turn_cond_run w) as (w1 & Hc & Hg1 & Ht1 & _).
    unfold bind at 1. rewrite Hc.
    destruct (_ && _) eqn:Hb.
    + destruct (turn_body_run w1) as (w2 & Hbody & Hg2 & Ht2 & _).
      unfold bind at 1. rewrite Hbody.
      apply IH. intros j Hex. apply (Hnever (S j)).
      apply (turn_exit_shift w w2 j); [congruence | congruence | exact Hex].
    + exfalso. apply (Hnever 0%nat). apply turn_cond_false. exact Hb.
Qed.

Lemma turn_returns (k fuel : nat) (w : World) :
  (forall j, (j < k)%nat -> ~ turn_exit E angle time w j) ->
  turn_exit E angle time w k ->
  (k < fuel)%nat ->
  exists w',
    turn E fuel angle speed time w = Done tt w' /\
    timer_reads w' = (S k + timer_reads w)%nat /\
    gyro_reads w' = (2 * k + 2 + gyro_reads w)%nat /\
    length (log w') = (2 * k + 2 + length (log w))%nat /\
    mode (leftMotor (robot w')) = Stopped HOLD /\
    mode (rightMotor (robot w')) = Stopped HOLD /\
    console w' = console w ++
      [mkTurnReport angle (gyro_angle E (2 * k + 1 + gyro_reads w))].
Proof.
  intros Hbefore Hk Hfuel. unfold turn.
  destruct (turn_loop_exits k fuel w Hbefore Hk Hfuel)
    as (w1 & Hrun & Hg1 & Ht1 & Hl1 & Hc1).
  unfold bind at 1. rewrite Hrun.
  destruct (stop_run HOLD w1)
    as (w2 & Hs & Hl2 & Hml & Hmr & _ & Hg2 & _ & _ & _ & Ht2 & Hc2 & _).
  unfold bind at 1. rewrite Hs.
  unfold bind, gyro_read, print_turn.
  eexists. split; [reflexivity |]. cbn.
  rewrite Ht2, Ht1, Hg2, Hg1, Hl2, length_app, Hl1, Hc2, Hc1. cbn.
  repeat split; try assumption; lia.
Qed.

Lemma turn_never_returns (fuel : nat) (w : World) :
  (forall j, ~ turn_exit E angle time w j) ->
  exists w', turn E fuel angle speed time w = Looping w'.
Proof.
  intros Hnever. unfold turn.
  destruct (turn_loop_never_exits fuel w Hnever) as (w' & Hrun).
  exists w'. unfold bind at 1. rewrite Hrun. reflexivity.
Qed.

End Turn.

(** On a gyro gaining 10 degrees per pass, with the stopwatch below 5 s
    during the first ten checks, [turn(90, _, 5)] first meets its exit
    condition at check 9. *)
Lemma ticking_gyro_first_exit (E : Env) (w : World) :
  ticking_gyro E w 10 ->
  (forall j, (j <= 9)%nat -> stopwatch E (j + timer_reads w) < 5 * 1000) ->
  (forall j, (j < 9)%nat -> ~ turn_exit E 90 5 w j) /\ turn_exit E 90 5 w 9.
Proof.
  intros Hgyro Hclock. split.
  - intros j Hj [Hzero | Hout].
    + rewrite (proj1 (Hgyro j)) in Hzero.
      assert (Heq : inject_Z (10 * Z.of_nat j) == inject_Z 90).
      { change (inject_Z 90) with 90.
        generalize dependent (inject_Z (10 * Z.of_nat j)). intros g Hg. lra. }
      apply (proj1 (inject_Z_injective _ _)) in Heq. lia.
    + assert (Hlt := Hclock j (Nat.lt_le_incl _ _ Hj)). lra.
  - left. rewrite (proj1 (Hgyro 9%nat)). reflexivity.
Qed.

(** C6. [turn] leaves its loop exactly at the first loop check where the
    heading error (gyro reading minus target) is exactly 0 or the elapsed
    time has reached the timeout: if that is check [k], it returns after [k]
    passes with both drive motors held and reports the target and the next
    gyro reading; if no check ever meets either condition it never returns.
    In particular, on a gyro that starts at 0 and gains 10 degrees per pass,
    [turn(90, 300, time=5)] leaves the loop at check 9, after 9 passes and
    before the timeout, and the error it reports is zero. *)
Theorem turn_exits_at_zero_error_or_timeout (E : Env) (w : World) :
  (forall angle speed time : Q,
      (forall k fuel : nat,
          (forall j, (j < k)%nat -> ~ turn_exit E angle time w j) ->
          turn_exit E angle time w k ->
          (k < fuel)%nat ->
          exists w',
            turn E fuel angle speed time w = Done tt w' /\
            timer_reads w' = (S k + timer_reads w)%nat /\
            gyro_reads w' = (2 * k + 2 + gyro_reads w)%nat /\
            length (log w') = (2 * k + 2 + length (log w))%nat /\
            mode (leftMotor (robot w')) = Stopped HOLD /\
            mode (rightMotor (robot w')) = Stopped HOLD /\
            console w' = console w ++
              [mkTurnReport angle (gyro_angle E (2 * k + 1 + gyro_reads w))]) /\
      ((forall j, ~ turn_exit E angle time w j) ->
       forall fuel, exists w', turn E fuel angle speed time w = Looping w')) /\
  (ticking_gyro E w 10 ->
   (forall j, (j <= 9)%nat -> stopwatch E (j + timer_reads w) < 5 * 1000) ->
   forall fuel, (9 < fuel)%nat ->
   exists w' g,
     turn E fuel 90 300 5 w = Done tt w' /\
     timer_reads w' = (10 + timer_reads w)%nat /\
     length (log w') = (20 + length (log w))%nat /\
     console w' = console w ++ [mkTurnReport 90 g] /\
     g - 90 == 0).
Proof.
  split.
  - intros angle speed time. split.
    + intros k fuel. apply turn_returns.
    + intros Hnever fuel. apply turn_never_returns, Hnever.
  - intros Hgyro Hclock fuel Hfuel.
    destruct (ticking_gyro_first_exit E w Hgyro Hclock) as [Hbefore Hexit].
    destruct (turn_returns E 90 300 5 9 fuel w Hbefore Hexit Hfuel)
      as (w' & Hrun & Ht & _ & Hl & _ & _ & Hc).
    exists w', (gyro_angle E (2 * 9 + 1 + gyro_reads w)).
    repeat split; try assumption.
    rewrite (proj2 (Hgyro 9%nat)). reflexivity.
Qed.

Lemma bench_fast_ticks : ticking_gyro bench_fast bench_fast_robot 10.
Proof.
  intros j. cbn [gyro_angle bench_fast bench gyro_reads bench_fast_robot].
  change (gyro_reads bench_fast_robot) with 1%nat.
  replace ((2 * j + 1 - 1) / 2)%nat with j.
  - replace ((2 * j + 1 + 1 - 1) / 2)%nat with j.
    + split; reflexivity.
    + apply Nat.div_unique with 1%nat; lia.
  - apply Nat.div_unique with 0%nat; lia.
Defined.

Lemma bench_fast_clock (j : nat) :
  (j <= 9)%nat -> stopwatch bench_fast (j + timer_reads bench_fast_robot) < 5 * 1000.
Proof.
  intros Hj. change (timer_reads bench_fast_robot) with 0%nat.
  cbn [stopwatch bench_fast]. change (5 * 1000) with (inject_Z 5000).
  rewrite <- Zlt_Qlt. lia.
Defined.

(** On the fast bench [turn(90, 300, 5)] returns at check 9; with gyro and
    stopwatch stuck at 0 it is still turning after 12 checks. *)
Lemma turn_exits_at_zero_error_or_timeout_bench :
  (exists w',
      turn bench_fast 10 90 300 5 bench_fast_robot = Done tt w' /\
      timer_reads w' = (10 + timer_reads bench_fast_robot)%nat /\
      gyro_reads w' = (2 * 9 + 2 + gyro_reads bench_fast_robot)%nat /\
      length (log w') = (2 * 9 + 2 + length (log bench_fast_robot))%nat /\
      mode (leftMotor (robot w')) = Stopped HOLD /\
      mode (rightMotor (robot w')) = Stopped HOLD /\
      console w' = console bench_fast_robot ++
        [mkTurnReport 90 (gyro_angle bench_fast (2 * 9 + 1 + gyro_reads bench_fast_robot))]) /\
  (exists w', turn bench_stuck 12 90 300 5 (Robot_init bench_stuck None) = Looping w') /\
  (exists w' g,
      turn bench_fast 10 90 300 5 bench_fast_robot = Done tt w' /\
      timer_reads w' = (10 + timer_reads bench_fast_robot)%nat /\
      length (log w') = (20 + length (log bench_fast_robot))%nat /\
      console w' = console bench_fast_robot ++ [mkTurnReport 90 g] /\
      g - 90 == 0).
Proof.
  destruct (ticking_gyro_first_exit bench_fast bench_fast_robot
              bench_fast_ticks bench_fast_clock) as [Hbefore Hexit].
  split; [| split].
  - apply (proj1 (proj1 (turn_exits_at_zero_error_or_timeout bench_fast bench_fast_robot)
                    90 300 5) 9%nat 10%nat Hbefore Hexit).
    lia.
  - apply (proj2 (proj1 (turn_exits_at_zero_error_or_timeout bench_stuck
                           (Robot_init bench_stuck None)) 90 300 5)).
    intros j [Hzero | Hout].
    + discriminate Hzero.
    + apply Hout. reflexivity.
  - apply (proj2 (turn_exits_at_zero_error_or_timeout bench_fast bench_fast_robot)
             bench_fast_ticks bench_fast_clock 10%nat).
    lia.
Defined.

(** The error is only looked at by the loop condition.  On a gyro that
    gains 10 degrees at every read, the checks of [turn(90, 300, 5)] read
    0, 20, ..., 80, 100 and the body reads 90 in between: the loop steps
    over the target and runs until the timeout (check 5 on the one-second
    stopwatch), and the report shows 110 for a target of 90. *)
Remark turn_steps_over_target :
  exists w',
    turn bench_per_read 10 90 300 5 (Robot_init bench_per_read None) = Done tt w' /\
    timer_reads w' = 6%nat /\
    console w' = [mkTurnReport 90 110].
Proof.
  eexists. split; [vm_compute; reflexivity |]. split; reflexivity.
Qed.

(** ** calibrate *)

Lemma light_run (E : Env) (i : SensorId) (w : World) :
  light E i w = Done (light_at E i w 0) (after_polls i 1 w).
Proof. destruct i; reflexivity. Qed.

Lemma after_polls_add (i : SensorId) (n m : nat) (w : World) :
  after_polls i n (after_polls i m w) = after_polls i (n + m) w.
Proof. destruct i; unfold after_polls; cbn; rewrite Nat.add_assoc; reflexivity. Qed.

Lemma light_at_after_same (E : Env) (i : SensorId) (w : World) (k j : nat) :
  light_at E i (after_polls i k w) j = light_at E i w (j + k).
Proof. destruct i; unfold light_at; cbn; rewrite Nat.add_assoc; reflexivity. Qed.

Lemma light_at_left_after_right (E : Env) (w : World) (k j : nat) :
  light_at E LeftSensor (after_polls RightSensor k w) j = light_at E LeftSensor w j.
Proof. reflexivity. Qed.

(** One pass of [calibrate]'s loop when each sensor returns one and the same
    value at every read of the pass: each bound moves to the reading when
    the reading is beyond it, so the pass keeps the minimum and maximum. *)
Lemma calibrate_body_steady (E : Env) (b : Bounds) (w : World) (r l : Q) :
  (forall j, (j < 4)%nat -> light_at E RightSensor w j = r) ->
  (forall j, (j < 4)%nat -> light_at E LeftSensor w j = l) ->
  exists w',
    calibrate_body E b w =
      Done (mkBounds
              (if gtb r (bRightHigh b) then r else bRightHigh b)
              (if ltb r (bRightLow b) then r else bRightLow b)
              (if gtb l (bLeftHigh b) then l else bLeftHigh b)
              (if ltb l (bLeftLow b) then l else bLeftLow b)) w'.
Proof.
  intros HR HL.
  assert (HR0 := HR 0%nat ltac:(lia)). assert (HR1 := HR 1%nat ltac:(lia)).
  assert (HR2 := HR 2%nat ltac:(lia)). assert (HR3 := HR 3%nat ltac:(lia)).
  assert (HL0 := HL 0%nat ltac:(lia)). assert (HL1 := HL 1%nat ltac:(lia)).
  assert (HL2 := HL 2%nat ltac:(lia)). assert (HL3 := HL 3%nat ltac:(lia)).
  clear HR HL. unfold calibrate_body.
  destruct (gtb r (bRightHigh b)) eqn:C1;
    destruct (ltb r (bRightLow b)) eqn:C2;
    destruct (gtb l (bLeftHigh b)) eqn:C3;
    destruct (ltb l (bLeftLow b)) eqn:C4;
    eexists;
    repeat (unfold bind at 1; first [rewrite light_run | unfold ret at 1];
            rewrite ?after_polls_add, ?light_at_after_same, ?light_at_left_after_right;
            cbn [Nat.add];
            rewrite ?HR0, ?HR1, ?HR2, ?HR3, ?HL0, ?HL1, ?HL2, ?HL3;
            rewrite ?C1, ?C2, ?C3, ?C4);
    reflexivity.
Qed.

(** C5 fails on the code. Each [if] of the loop calls [light()] once for the
    test and again for the value it stores.  On the bench both sensors
    return 30 and 90 on alternate calls and the window holds five passes:
    every test sees 30 against the high seed and 90 against the low seed, no
    bound is ever updated, and the file gets the seeds, lows 70 and highs
    40, not 30 and 90. *)
Theorem calibrate_rereads_the_sensor :
  light_at bench RightSensor bench_robot 0 == 30 /\
  light_at bench RightSensor bench_robot 1 == 90 /\
  light_at bench LeftSensor bench_robot 0 == 30 /\
  light_at bench LeftSensor bench_robot 1 == 90 /\
  exists w',
    calibrate bench 6 bench_robot = Done tt w' /\
    timer_reads w' = 6%nat /\ right_reads w' = 10%nat /\ left_reads w' = 10%nat /\
    sensorpoints w' = Some (mkCalibration 70 70 40 40).
Proof.
  repeat split; try reflexivity.
  eexists. split; [vm_compute; reflexivity |]. repeat split.
Qed.

(** ** Further properties: classification *)

(** X1. With [black < white] (as [LightSensor(low, high)] gives for
    [low < high]) no reading is both white and black: called on the same
    state, hence on the same reading, [isWhite] and [isBlack] both return
    after that one read and do not both answer [True]. *)
Theorem isWhite_isBlack_exclusive (E : Env) (i : SensorId) (w : World) :
  black (getSensor i (robot w)) < white (getSensor i (robot w)) ->
  exists bw bb,
    isWhite E i w = Done bw (after_polls i 1 w) /\
    isBlack E i w = Done bb (after_polls i 1 w) /\
    bw && bb = false.
Proof.
  intros Hbw. exists (white_at E i w 0), (black_at E i w 0).
  split; [apply isWhite_run |]. split; [apply isBlack_run |].
  unfold white_at, black_at.
  destruct (geb _ _) eqn:Hw; [| reflexivity].
  destruct (leb _ _) eqn:Hb; [| reflexivity].
  apply geb_true in Hw. apply leb_true in Hb. lra.
Qed.

Lemma isWhite_isBlack_exclusive_bench :
  black (getSensor LeftSensor (robot bench_bright_robot))
    < white (getSensor LeftSensor (robot bench_bright_robot)) /\
  exists bw bb,
    isWhite bench_bright LeftSensor bench_bright_robot
      = Done bw (after_polls LeftSensor 1 bench_bright_robot) /\
    isBlack bench_bright LeftSensor bench_bright_robot
      = Done bb (after_polls LeftSensor 1 bench_bright_robot) /\
    bw && bb = false.
Proof.
  assert (H : black (getSensor LeftSensor (robot bench_bright_robot))
              < white (getSensor LeftSensor (robot bench_bright_robot)))
    by reflexivity.
  exact (conj H (isWhite_isBlack_exclusive bench_bright LeftSensor bench_bright_robot H)).
Defined.

(** X2. [LightSensor.__init__] does not check its bounds.  With
    [high < low] the thresholds come out in reverse order,
    [high < white < line < black < low], and every reading between [white]
    and [black] classifies as white and as black at once. *)
Theorem LightSensor_init_inverted (low high : Q) :
  high < low ->
  let s := LightSensor_init low high in
  high < white s /\ white s < line s /\ line s < black s /\ black s < low /\
  forall l, white s <= l -> l <= black s ->
            geb l (white s) = true /\ leb l (black s) = true.
Proof.
  intros H s. unfold s, LightSensor_init. cbn [black white line].
  repeat split; try lra.
  - apply geb_true. assumption.
  - apply leb_true. assumption.
Qed.

(** The seeds of [calibrate], low 70 and high 40, are such bounds. *)
Lemma LightSensor_init_inverted_seeds :
  40 < 70 /\
  40 < white (LightSensor_init 70 40) /\
  white (LightSensor_init 70 40) < line (LightSensor_init 70 40) /\
  line (LightSensor_init 70 40) < black (LightSensor_init 70 40) /\
  black (LightSensor_init 70 40) < 70 /\
  geb 50 (white (LightSensor_init 70 40)) = true /\
  leb 50 (black (LightSensor_init 70 40)) = true.
Proof.
  assert (H : 40 < 70) by reflexivity.
  destruct (LightSensor_init_inverted 70 40 H) as (H1 & H2 & H3 & H4 & H5).
  assert (Ha : white (LightSensor_init 70 40) <= 50) by (intro C; discriminate C).
  assert (Hb : 50 <= black (LightSensor_init 70 40)) by (intro C; discriminate C).
  exact (conj H (conj H1 (conj H2 (conj H3 (conj H4 (H5 50 Ha Hb)))))).
Defined.

(** ** Further properties: steering *)

(** X3. [moveSteering] is mirror-symmetric: negating the steering swaps
    the two wheel speeds; and with steering 0 both wheels get the base
    speed. *)
Theorem moveSteering_mirror (steering s : Q) :
  leftMotorSpeed (- steering) s == rightMotorSpeed steering s /\
  rightMotorSpeed (- steering) s == leftMotorSpeed steering s /\
  leftMotorSpeed 0 s == s /\ rightMotorSpeed 0 s == s.
Proof.
  unfold leftMotorSpeed, rightMotorSpeed.
  repeat split.
  - destruct (pymin_cases 1 ((2 # 100) * - steering + 1)) as [[H1 ->] | [H1 ->]];
      destruct (pymin_cases 1 (- (2 # 100) * steering + 1)) as [[H2 ->] | [H2 ->]];
      try lra; nra.
  - destruct (pymin_cases 1 (- (2 # 100) * - steering + 1)) as [[H1 ->] | [H1 ->]];
      destruct (pymin_cases 1 ((2 # 100) * steering + 1)) as [[H2 ->] | [H2 ->]];
      try lra; nra.
  - vm_compute (pymin 1 ((2 # 100) * 0 + 1)). ring.
  - vm_compute (pymin 1 (- (2 # 100) * 0 + 1)). ring.
Qed.

(** X4. A positive steering never slows the left wheel and a negative one
    never slows the right wheel: the wheel on the outside of the turn always
    gets exactly the base speed, and the clamp [min(1, ...)] keeps each
    wheel's factor at 1 or below. *)
Theorem moveSteering_outer_wheel (steering s : Q) :
  (0 <= steering -> leftMotorSpeed steering s == s) /\
  (steering <= 0 -> rightMotorSpeed steering s == s) /\
  (0 <= s -> leftMotorSpeed steering s <= s /\ rightMotorSpeed steering s <= s).
Proof.
  unfold leftMotorSpeed, rightMotorSpeed.
  split; [| split].
  - intros H. destruct (pymin_cases 1 ((2 # 100) * steering + 1)) as [[H1 ->] | [H1 ->]];
      [lra | ring].
  - intros H. destruct (pymin_cases 1 (- (2 # 100) * steering + 1)) as [[H1 ->] | [H1 ->]];
      [lra | ring].
  - intros Hs.
    pose proof (pymin_le_l 1 ((2 # 100) * steering + 1)) as Hl.
    pose proof (pymin_le_l 1 (- (2 # 100) * steering + 1)) as Hr.
    split; nra.
Qed.

Lemma moveSteering_outer_wheel_at_30_200 :
  0 <= 30 /\ -30 <= 0 /\ 0 <= 200 /\
  leftMotorSpeed 30 200 == 200 /\
  rightMotorSpeed (-30) 200 == 200 /\
  leftMotorSpeed 30 200 <= 200 /\ rightMotorSpeed 30 200 <= 200.
Proof.
  assert (H1 : 0 <= 30) by (intro C; discriminate C).
  assert (H2 : -30 <= 0) by (intro C; discriminate C).
  assert (H3 : 0 <= 200) by (intro C; discriminate C).
  exact (conj H1 (conj H2 (conj H3
    (conj (proj1 (moveSteering_outer_wheel 30 200) H1)
       (conj (proj1 (proj2 (moveSteering_outer_wheel (-30) 200)) H2)
          (proj2 (proj2 (moveSteering_outer_wheel 30 200)) H3)))))).
Defined.

(** ** Further properties: what the operations leave alone *)

Lemma keeps_ret {T A} (f : World -> T) (a : A) : keeps f (ret a).
Proof. intros w. reflexivity. Qed.

Lemma keeps_raise {T A} (f : World -> T) (e : Exn) : keeps f (@raise A e).
Proof. intros w. reflexivity. Qed.

Lemma keeps_bind {T A B} (f : World -> T) (m : M A) (k : A -> M B) :
  keeps f m -> (forall a, keeps f (k a)) -> keeps f (bind m k).
Proof.
  intros Hm Hk w. unfold bind. specialize (Hm w).
  destruct (m w) as [a w1 | e w1 | w1]; cbn in Hm |- *; try exact Hm.
  rewrite Hk. exact Hm.
Qed.

Lemma keeps_while {T L} (f : World -> T) (cond : L -> M bool) (body : L -> M L) :
  (forall x, keeps f (cond x)) -> (forall x, keeps f (body x)) ->
  forall fuel x, keeps f (while fuel cond body x).
Proof.
  intros Hc Hb fuel. induction fuel as [| fuel IH]; intros x.
  - intros w. reflexivity.
  - cbn [while]. apply keeps_bind; [apply Hc |].
    intros [|]; [| apply keeps_ret].
    apply keeps_bind; [apply Hb | apply IH].
Qed.

Lemma keeps_if {T A} (f : World -> T) (b : bool) (m1 m2 : M A) :
  keeps f m1 -> keeps f m2 -> keeps f (if b then m1 else m2).
Proof. destruct b; auto. Qed.

(** A primitive keeps a component when its final state computes to it. *)
Ltac keep_prim :=
  let w := fresh "w" in
  intros w;
  repeat match goal with
         | i : SensorId |- _ => destruct i
         | |- context [if ?b then _ else _] => is_var b; destruct b
         end;
  reflexivity.

Ltac keep_step :=
  match goal with
  | |- keeps _ (bind _ _) => apply keeps_bind; [| intros]
  | |- keeps _ (while _ _ _ _) => apply keeps_while; intros
  | |- keeps _ (if _ then _ else _) => apply keeps_if
  | |- keeps _ (let '(_, _) := ?p in _) => destruct p
  | |- keeps _ (ret _) => apply keeps_ret
  | |- keeps _ (raise _) => apply keeps_raise
  | |- keeps _ _ => solve [keep_prim]
  end.

(** Unfolds the methods down to the primitive device operations. *)
Ltac open_methods :=
  unfold calibrate, calibrate_body, drive2Line, turn2Line, lineFollow4Time,
    lineFollow4Time_body, lineFollow2Line, lineFollow2Line_body, turn, turn_cond,
    turn_body, drive, drive_cond, drive_body, pydiv, moveSteering, stop,
    waitForLine, waitForWhite, waitForBlack, isWhite, isBlack, light.

Ltac keep := open_methods; repeat keep_step.

(** X5. No operation changes the thresholds of the light sensors, not even
    [calibrate]: the bounds it measures go to the file only and reach the
    sensors when a robot is next constructed. *)
Theorem thresholds_never_change (E : Env) (sin : Q -> Q) (fuel : nat) :
  keeps thresholds (calibrate E fuel) /\
  (forall steering speed, keeps thresholds (moveSteering steering speed)) /\
  (forall distance speed time kSteering,
      keeps thresholds (drive E sin fuel distance speed time kSteering)) /\
  (forall angle speed time, keeps thresholds (turn E fuel angle speed time)) /\
  (forall speed rightSide useRightSensor,
      keeps thresholds (lineFollow2Line E fuel speed rightSide useRightSensor)) /\
  (forall speed time rightSide useRightSensor,
      keeps thresholds (lineFollow4Time E fuel speed time rightSide useRightSensor)) /\
  (forall speed useRightSensor time,
      keeps thresholds (turn2Line E fuel speed useRightSensor time)) /\
  (forall speed distanceBefore distanceAfter useRightSensor,
      keeps thresholds
        (drive2Line E sin fuel speed distanceBefore distanceAfter useRightSensor)) /\
  (forall brakeType, keeps thresholds (stop brakeType)) /\
  (forall i, keeps thresholds (waitForLine E fuel i)).
Proof.
  repeat match goal with |- _ /\ _ => split end; intros; keep.
Qed.

(** X6. The calibration file is written by [calibrate] alone, and only when
    it returns: every other operation, and a [calibrate] that is still
    driving, leaves [sensorpoints.py] as it was; a [calibrate] that returns
    has written it. *)
Theorem sensorpoints_written_by_calibrate_only (E : Env) (sin : Q -> Q) (fuel : nat) :
  (forall steering speed, keeps sensorpoints (moveSteering steering speed)) /\
  (forall distance speed time kSteering,
      keeps sensorpoints (drive E sin fuel distance speed time kSteering)) /\
  (forall angle speed time, keeps sensorpoints (turn E fuel angle speed time)) /\
  (forall speed rightSide useRightSensor,
      keeps sensorpoints (lineFollow2Line E fuel speed rightSide useRightSensor)) /\
  (forall speed time rightSide useRightSensor,
      keeps sensorpoints (lineFollow4Time E fuel speed time rightSide useRightSensor)) /\
  (forall speed useRightSensor time,
      keeps sensorpoints (turn2Line E fuel speed useRightSensor time)) /\
  (forall speed distanceBefore distanceAfter useRightSensor,
      keeps sensorpoints
        (drive2Line E sin fuel speed distanceBefore distanceAfter useRightSensor)) /\
  (forall brakeType, keeps sensorpoints (stop brakeType)) /\
  (forall w w', calibrate E fuel w = Looping w' -> sensorpoints w' = sensorpoints w) /\
  (forall w w', calibrate E fuel w = Done tt w' -> exists c, sensorpoints w' = Some c).
Proof.
  repeat match goal with |- _ /\ _ => split end; intros; try solve [keep].
  - unfold calibrate in H. unfold bind at 1 in H.
    destruct (moveSteering 0 125 w) as [[] w1 | e w1 | w1] eqn:Hm.
    + unfold bind at 1 in H.
      assert (Hk1 : keeps sensorpoints (moveSteering 0 125)) by keep.
      specialize (Hk1 w). rewrite Hm in Hk1. cbn in Hk1.
      match type of H with
      | context [while fuel ?c ?b ?x w1] =>
          assert (Hk2 : keeps sensorpoints (while fuel c b x)) by keep;
          specialize (Hk2 w1);
          destruct (while fuel c b x w1) as [bb w2 | e w2 | w2]
      end.
      * discriminate H.
      * discriminate H.
      * injection H as <-. cbn in Hk2. congruence.
    + discriminate H.
    + discriminate Hm.
  - unfold calibrate, bind, write_sensorpoints in H.
    destruct (moveSteering 0 125 w) as [[] w1 | e w1 | w1]; try discriminate H.
    destruct (while _ _ _ _ w1) as [bb w2 | e w2 | w2]; try discriminate H.
    destruct (stop HOLD w2) as [[] w3 | e w3 | w3]; try discriminate H.
    injection H as <-. eexists. reflexivity.
Qed.

Lemma sensorpoints_written_by_calibrate_only_bench :
  calibrate bench 2 bench_robot = Looping (final (calibrate bench 2 bench_robot)) /\
  sensorpoints (final (calibrate bench 2 bench_robot)) = sensorpoints bench_robot /\
  calibrate bench 6 bench_robot = Done tt (final (calibrate bench 6 bench_robot)) /\
  exists c, sensorpoints (final (calibrate bench 6 bench_robot)) = Some c.
Proof.
  assert (H1 : calibrate bench 2 bench_robot
               = Looping (final (calibrate bench 2 bench_robot)))
    by (vm_compute; reflexivity).
  assert (H2 : calibrate bench 6 bench_robot
               = Done tt (final (calibrate bench 6 bench_robot)))
    by (vm_compute; reflexivity).
  pose proof (sensorpoints_written_by_calibrate_only bench sin_id 2) as T2.
  pose proof (sensorpoints_written_by_calibrate_only bench sin_id 6) as T6.
  split; [exact H1 |]. split.
  - exact (proj1 (proj2 (proj2 (proj2 (proj2 (proj2 (proj2 (proj2 (proj2 T2))))))))
             bench_robot _ H1).
  - split; [exact H2 |].
    exact (proj2 (proj2 (proj2 (proj2 (proj2 (proj2 (proj2 (proj2 (proj2 T6))))))))
             bench_robot _ H2).
Defined.

(** ** Further properties: the robot is held when an operation returns *)

Lemma ends_held_stop : ends_held (stop HOLD).
Proof.
  intros w a w' H. destruct (stop_run HOLD w) as (w1 & Hs & _ & Hl & Hr & _).
  rewrite Hs in H. injection H as _ <-. split; assumption.
Qed.

Lemma ends_held_then {A B} (m : M A) (k : A -> M B) :
  (forall a, ends_held (k a)) -> ends_held (bind m k).
Proof.
  intros Hk w b w' H. unfold bind in H.
  destruct (m w) as [a w1 | e w1 | w1]; try discriminate H.
  exact (Hk a w1 b w' H).
Qed.

Lemma ends_held_before {A B} (m : M A) (k : A -> M B) :
  ends_held m -> (forall a, keeps drive_modes (k a)) -> ends_held (bind m k).
Proof.
  intros Hm Hk w b w' H. unfold bind in H.
  destruct (m w) as [a w1 | e w1 | w1] eqn:Hmw; try discriminate H.
  specialize (Hk a w1). rewrite H in Hk. cbn in Hk.
  destruct (Hm w a w1 Hmw) as [Hl Hr]. unfold drive_modes in Hk.
  injection Hk as Hl' Hr'. split; congruence.
Qed.

Ltac held_step :=
  match goal with
  | |- ends_held (stop HOLD) => apply ends_held_stop
  | |- ends_held (let '(_, _) := ?p in _) => destruct p
  | |- ends_held (bind _ _) =>
      first [ apply ends_held_before; [apply ends_held_stop | intros; solve [keep]]
            | apply ends_held_then; intros ]
  end.

Lemma ends_held_drive (E : Env) (sin : Q -> Q) (fuel : nat)
    (distance speed time kSteering : Q) :
  ends_held (drive E sin fuel distance speed time kSteering).
Proof. unfold drive. repeat held_step. Qed.

(** X7. Whenever [drive], [turn], [lineFollow2Line], [lineFollow4Time],
    [turn2Line], [drive2Line] or [calibrate] returns, both drive motors have
    been stopped with HOLD braking and nothing has run them since. *)
Theorem motion_ends_held (E : Env) (sin : Q -> Q) (fuel : nat) :
  ends_held (calibrate E fuel) /\
  (forall distance speed time kSteering,
      ends_held (drive E sin fuel distance speed time kSteering)) /\
  (forall angle speed time, ends_held (turn E fuel angle speed time)) /\
  (forall speed rightSide useRightSensor,
      ends_held (lineFollow2Line E fuel speed rightSide useRightSensor)) /\
  (forall speed time rightSide useRightSensor,
      ends_held (lineFollow4Time E fuel speed time rightSide useRightSensor)) /\
  (forall speed useRightSensor time,
      ends_held (turn2Line E fuel speed useRightSensor time)) /\
  (forall speed distanceBefore distanceAfter useRightSensor,
      ends_held (drive2Line E sin fuel speed distanceBefore distanceAfter useRightSensor)).
Proof.
  repeat match goal with |- _ /\ _ => split end; intros.
  - unfold calibrate. repeat held_step.
  - apply ends_held_drive.
  - unfold turn. repeat held_step.
  - unfold lineFollow2Line. repeat held_step.
  - unfold lineFollow4Time. repeat held_step.
  - unfold turn2Line. repeat held_step.
  - unfold drive2Line.
    do 4 (apply ends_held_then; intros). apply ends_held_drive.
Qed.

Lemma motion_ends_held_bench :
  turn bench_fast 10 90 300 5 bench_fast_robot
    = Done tt (final (turn bench_fast 10 90 300 5 bench_fast_robot)) /\
  held (final (turn bench_fast 10 90 300 5 bench_fast_robot)).
Proof.
  assert (H : turn bench_fast 10 90 300 5 bench_fast_robot
              = Done tt (final (turn bench_fast 10 90 300 5 bench_fast_robot)))
    by (vm_compute; reflexivity).
  split; [exact H |].
  exact (proj1 (proj2 (proj2 (motion_ends_held bench_fast sin_id 10))) 90 300 5
           bench_fast_robot tt _ H).
Defined.

(** ** Further properties: waiting for a line *)

Lemma white_at_after (E : Env) (i : SensorId) (w : World) (n j : nat) :
  white_at E i (after_polls i n w) j = white_at E i w (j + n).
Proof.
  unfold white_at, light_at. destruct i; cbn; rewrite Nat.add_assoc; reflexivity.
Qed.

Lemma black_at_after (E : Env) (i : SensorId) (w : World) (n j : nat) :
  black_at E i (after_polls i n w) j = black_at E i w (j + n).
Proof.
  unfold black_at, light_at. destruct i; cbn; rewrite Nat.add_assoc; reflexivity.
Qed.

(** Classification depends on the state through the thresholds and the
    read counters only. *)
Lemma classify_same (E : Env) (i : SensorId) (w w1 : World) (j : nat) :
  thresholds w1 = thresholds w -> light_reads w1 = light_reads w ->
  white_at E i w1 j = white_at E i w j /\ black_at E i w1 j = black_at E i w j.
Proof.
  unfold thresholds, light_reads. intros Ht Hr.
  injection Ht as Hl Hrr. injection Hr as Hlr Hrr'.
  unfold white_at, black_at, light_at.
  destruct i; cbn [getSensor sensor_reads]; rewrite ?Hl, ?Hrr, ?Hlr, ?Hrr'; split; reflexivity.
Qed.

Section WaitForLine.

Variable E : Env.
Variable i : SensorId.

Lemma waitForLine_returns (w : World) (k m fuel : nat) :
  (forall j, (j < k)%nat -> white_at E i w j = false) ->
  white_at E i w k = true ->
  (forall j, (j < m)%nat -> black_at E i w (j + S k) = false) ->
  black_at E i w (m + S k) = true ->
  (k < fuel)%nat -> (m < fuel)%nat ->
  waitForLine E fuel i w = Done tt (after_polls i (S m + S k) w).
Proof.
  intros Hw Hwk Hb Hbm Hk Hm. unfold waitForLine, bind.
  rewrite (waitForWhite_returns E i k fuel w Hw Hwk Hk).
  rewrite (waitForBlack_returns E i m fuel (after_polls i (S k) w)).
  - rewrite after_polls_add. reflexivity.
  - intros j Hj. rewrite black_at_after. apply Hb, Hj.
  - rewrite black_at_after. exact Hbm.
  - exact Hm.
Qed.

Lemma waitForLine_no_white (w : World) (fuel : nat) :
  (forall j, white_at E i w j = false) ->
  waitForLine E fuel i w = Looping (after_polls i fuel w).
Proof.
  intros Hw. unfold waitForLine, bind.
  rewrite (waitForWhite_blocks E i fuel w Hw). reflexivity.
Qed.

Lemma waitForLine_no_black (w : World) (k fuel : nat) :
  (forall j, (j < k)%nat -> white_at E i w j = false) ->
  white_at E i w k = true ->
  (forall j, black_at E i w (j + S k) = false) ->
  (k < fuel)%nat ->
  waitForLine E fuel i w = Looping (after_polls i (fuel + S k) w).
Proof.
  intros Hw Hwk Hb Hk. unfold waitForLine, bind.
  rewrite (waitForWhite_returns E i k fuel w Hw Hwk Hk).
  rewrite (waitForBlack_blocks E i fuel (after_polls i (S k) w)).
  - rewrite after_polls_add. reflexivity.
  - intros j. rewrite black_at_after. apply Hb.
Qed.

End WaitForLine.

(** X8. [waitForLine] returns exactly at the first black reading that
    follows the first white reading: readings before the white one are not
    looked at for black, and the sensor is polled up to and including that
    black reading.  It has no timeout: when no reading is ever white, or
    none is black after the first white one, it is still polling after any
    number of reads. *)
Theorem waitForLine_white_then_black (E : Env) (i : SensorId) (w : World) :
  (forall k m fuel : nat,
      (forall j, (j < k)%nat -> white_at E i w j = false) ->
      white_at E i w k = true ->
      (forall j, (j < m)%nat -> black_at E i w (j + S k) = false) ->
      black_at E i w (m + S k) = true ->
      (k < fuel)%nat -> (m < fuel)%nat ->
      waitForLine E fuel i w = Done tt (after_polls i (S m + S k) w)) /\
  ((forall j, white_at E i w j = false) ->
   forall fuel, waitForLine E fuel i w = Looping (after_polls i fuel w)) /\
  (forall k,
      (forall j, (j < k)%nat -> white_at E i w j = false) ->
      white_at E i w k = true ->
      (forall j, black_at E i w (j + S k) = false) ->
      forall fuel, (k < fuel)%nat ->
                   waitForLine E fuel i w = Looping (after_polls i (fuel + S k) w)).
Proof.
  split; [| split].
  - intros k m fuel. apply waitForLine_returns.
  - intros Hw fuel. apply waitForLine_no_white, Hw.
  - intros k Hw Hwk Hb fuel Hk. apply waitForLine_no_black; assumption.
Qed.

(** On the bench the left sensor reads 30, 90, 30, ...: white at the second
    reading, black at the third.  Readings stuck at 30 are never white;
    readings stuck at 150 are white at once and never black. *)
Lemma waitForLine_white_then_black_bench :
  waitForLine bench 3 LeftSensor bench_robot
    = Done tt (after_polls LeftSensor 3 bench_robot) /\
  waitForLine bench_dark 7 LeftSensor bench_dark_robot
    = Looping (after_polls LeftSensor 7 bench_dark_robot) /\
  waitForLine bench_bright 7 LeftSensor bench_bright_robot
    = Looping (after_polls LeftSensor (7 + 1) bench_bright_robot).
Proof.
  split; [| split].
  - apply (proj1 (waitForLine_white_then_black bench LeftSensor bench_robot) 1 0 3)%nat.
    + intros [| j] Hj; [reflexivity | lia].
    + reflexivity.
    + intros j Hj; lia.
    + reflexivity.
    + lia.
    + lia.
  - apply (proj1 (proj2 (waitForLine_white_then_black bench_dark LeftSensor
                           bench_dark_robot))).
    intros j. reflexivity.
  - apply (proj2 (proj2 (waitForLine_white_then_black bench_bright LeftSensor
                           bench_bright_robot)) 0%nat).
    + intros j Hj; lia.
    + reflexivity.
    + intros j. reflexivity.
    + lia.
Defined.

(** ** Further properties: turn2Line *)

Lemma moveSteering_then (steering speed : Q) (w : World) :
  exists w1,
    moveSteering steering speed w = Done tt w1 /\
    log w1 = log w ++ [CRun LeftMotor (leftMotorSpeed steering speed);
                       CRun RightMotor (rightMotorSpeed steering speed)] /\
    thresholds w1 = thresholds w /\ light_reads w1 = light_reads w /\
    drive_modes w1 = (Running (leftMotorSpeed steering speed),
                      Running (rightMotorSpeed steering speed)).
Proof.
  eexists. split; [reflexivity |]. cbn. rewrite <- app_assoc. repeat split.
Qed.

Lemma after_polls_keeps (i : SensorId) (n : nat) (w : World) :
  log (after_polls i n w) = log w /\
  drive_modes (after_polls i n w) = drive_modes w /\
  sensor_reads i (after_polls i n w) = (n + sensor_reads i w)%nat.
Proof. destruct i; repeat split. Qed.

(** X9. [turn2Line] starts the spot turn and then waits for the line with
    no timeout; its [time] argument is never used.  When the stop sensor
    reads white and then black, it returns having issued exactly the two
    [run] commands and the two [stop(HOLD)]; when the sensor never reads
    white it never returns, and the wheels keep running at [speed] and
    [-speed]. *)
Theorem turn2Line_waits_for_the_line (E : Env) (speed : Q) (useRightSensor : bool)
    (time : Q) (w : World) :
  let i := if useRightSensor then RightSensor else LeftSensor in
  (forall k m fuel,
      (forall j, (j < k)%nat -> white_at E i w j = false) ->
      white_at E i w k = true ->
      (forall j, (j < m)%nat -> black_at E i w (j + S k) = false) ->
      black_at E i w (m + S k) = true ->
      (k < fuel)%nat -> (m < fuel)%nat ->
      exists w',
        turn2Line E fuel speed useRightSensor time w = Done tt w' /\
        log w' = log w ++ [CRun LeftMotor (leftMotorSpeed 100 speed);
                           CRun RightMotor (rightMotorSpeed 100 speed);
                           CStop RightMotor HOLD; CStop LeftMotor HOLD] /\
        sensor_reads i w' = (S m + S k + sensor_reads i w)%nat) /\
  ((forall j, white_at E i w j = false) ->
   forall fuel, exists w',
     turn2Line E fuel speed useRightSensor time w = Looping w' /\
     drive_modes w' = (Running (leftMotorSpeed 100 speed),
                       Running (rightMotorSpeed 100 speed)) /\
     leftMotorSpeed 100 speed == speed /\ rightMotorSpeed 100 speed == - speed).
Proof.
  intros i.
  destruct (moveSteering_then 100 speed w) as (w1 & Hm & Hl1 & Ht1 & Hr1 & Hd1).
  split.
  - intros k m fuel Hw Hwk Hb Hbm Hk Hmf.
    unfold turn2Line. fold i. unfold bind at 1. rewrite Hm.
    unfold bind at 1.
    rewrite (waitForLine_returns E i w1 k m fuel);
      try assumption;
      try (intros j Hj); try rewrite (proj1 (classify_same E i w w1 _ Ht1 Hr1));
      try rewrite (proj2 (classify_same E i w w1 _ Ht1 Hr1)); auto.
    destruct (stop_run HOLD (after_polls i (S m + S k) w1))
      as (w' & Hs & Hlog & _ & _ & _ & _ & _ & Hlr & Hrr & _).
    exists w'. split; [exact Hs |].
    destruct (after_polls_keeps i (S m + S k) w1) as (Hal & _ & Har).
    split.
    + rewrite Hlog, Hal, Hl1, <- app_assoc. reflexivity.
    + unfold light_reads in Hr1. injection Hr1 as Hr1l Hr1r.
      destruct i; cbn [sensor_reads] in Har |- *; rewrite ?Hlr, ?Hrr, Har; congruence.
  - intros Hw fuel. unfold turn2Line. fold i. unfold bind at 1. rewrite Hm.
    unfold bind at 1.
    rewrite (waitForLine_no_white E i w1 fuel).
    + eexists. split; [reflexivity |].
      rewrite (proj1 (proj2 (after_polls_keeps i fuel w1))).
      split; [exact Hd1 |]. split.
      * unfold leftMotorSpeed. vm_compute (pymin 1 ((2 # 100) * 100 + 1)). ring.
      * unfold rightMotorSpeed. vm_compute (pymin 1 (- (2 # 100) * 100 + 1)). ring.
    + intros j. rewrite (proj1 (classify_same E i w w1 j Ht1 Hr1)). apply Hw.
Qed.

Lemma turn2Line_waits_for_the_line_bench :
  (exists w',
      turn2Line bench 3 200 false 5 bench_robot = Done tt w' /\
      log w' = log bench_robot ++
                 [CRun LeftMotor (leftMotorSpeed 100 200);
                  CRun RightMotor (rightMotorSpeed 100 200);
                  CStop RightMotor HOLD; CStop LeftMotor HOLD] /\
      sensor_reads LeftSensor w' = (1 + 2 + sensor_reads LeftSensor bench_robot)%nat) /\
  (exists w',
      turn2Line bench_dark 9 200 false 5 bench_dark_robot = Looping w' /\
      drive_modes w' = (Running (leftMotorSpeed 100 200),
                        Running (rightMotorSpeed 100 200)) /\
      leftMotorSpeed 100 200 == 200 /\ rightMotorSpeed 100 200 == - (200)).
Proof.
  split.
  - apply (proj1 (turn2Line_waits_for_the_line bench 200 false 5 bench_robot) 1 0 3)%nat.
    + intros [| j] Hj; [reflexivity | lia].
    + reflexivity.
    + intros j Hj; lia.
    + reflexivity.
    + lia.
    + lia.
  - apply (proj2 (turn2Line_waits_for_the_line bench_dark 200 false 5 bench_dark_robot)).
    intros j. reflexivity.
Defined.

(** ** Further properties: drive *)

Lemma no_raise_bind {A B} (m : M A) (k : A -> M B) :
  no_raise m -> (forall a, no_raise (k a)) -> no_raise (bind m k).
Proof.
  intros Hm Hk w e w' H. unfold bind in H.
  destruct (m w) as [a w1 | e1 w1 | w1] eqn:Hmw.
  - exact (Hk a w1 e w' H).
  - exact (Hm w e1 w1 Hmw).
  - discriminate H.
Qed.

Lemma no_raise_while {L} (cond : L -> M bool) (body : L -> M L) :
  (forall x, no_raise (cond x)) -> (forall x, no_raise (body x)) ->
  forall fuel x, no_raise (while fuel cond body x).
Proof.
  intros Hc Hb fuel. induction fuel as [| fuel IH]; intros x.
  - intros w e w' H. discriminate H.
  - cbn [while]. apply no_raise_bind; [apply Hc |].
    intros [|].
    + apply no_raise_bind; [apply Hb | apply IH].
    + intros w e w' H. discriminate H.
Qed.

Lemma no_raise_returns {A} (m : M A) : returns m -> no_raise m.
Proof. intros H w e w' Hr. destruct (H w) as (a & w1 & Hd). congruence. Qed.

Lemma returns_stop (brakeType : Stop) : returns (stop brakeType).
Proof. intros w. eexists. eexists. reflexivity. Qed.

Lemma returns_moveSteering (steering speed : Q) : returns (moveSteering steering speed).
Proof. intros w. eexists. eexists. reflexivity. Qed.

Lemma no_raise_poll (test : M bool) (fuel : nat) :
  no_raise test ->
  no_raise (while fuel (fun _ : unit => (t <- test ;; ret (negb t)))
              (fun _ => ret tt) tt).
Proof.
  intros Ht. apply no_raise_while; intros [].
  - apply no_raise_bind; [exact Ht |]. intros a w e w' H. discriminate H.
  - intros w e w' H. discriminate H.
Qed.

Lemma no_raise_waitForLine (E : Env) (fuel : nat) (i : SensorId) :
  no_raise (waitForLine E fuel i).
Proof.
  unfold waitForLine, waitForWhite, waitForBlack.
  apply no_raise_bind; [| intros _]; apply no_raise_poll; intros w e w' H.
  - rewrite isWhite_run in H. discriminate H.
  - rewrite isBlack_run in H. discriminate H.
Qed.

Lemma Qabs_zero_iff (x : Q) : Qabs x == 0 <-> x == 0.
Proof.
  split; intros H.
  - assert (Hle : Qabs x <= 0) by lra.
    apply Qabs_Qle_condition in Hle. lra.
  - rewrite H. reflexivity.
Qed.

Lemma Qabs_rotation (distance : Q) :
  Qabs (distance * (519 # 10)) == rotation_target distance /\
  Qabs (Qabs distance * (519 # 10)) == rotation_target distance.
Proof.
  unfold rotation_target. rewrite !Qabs_Qmult.
  assert (H1 : Qabs (519 # 10) == 519 # 10) by reflexivity.
  assert (H2 : Qabs (Qabs distance) == Qabs distance)
    by (apply Qabs_pos, Qabs_nonneg).
  rewrite H1, H2. split; reflexivity.
Qed.

Section DriveLoop.

Variable E : Env.
Variable sin : Q -> Q.
Variables startDegrees rotation speed kSteering time distance : Q.
Hypothesis Hrot : Qabs rotation == rotation_target distance.

Lemma drive_body_then (w : World) :
  ~ rotation == 0 ->
  exists w2,
    drive_body E sin startDegrees rotation speed kSteering w = Done tt w2 /\
    timer_reads w2 = timer_reads w /\
    angle_reads w2 = S (angle_reads w) /\
    gyro_reads w2 = S (gyro_reads w) /\
    length (log w2) = (2 + length (log w))%nat.
Proof.
  intros Hnz. unfold drive_body, bind, gyro_read, rightMotor_read.
  rewrite pydiv_nonzero by exact Hnz.
  match goal with
  | |- context [moveSteering ?a ?b ?w0] =>
      destruct (moveSteering_run a b w0)
        as (w2 & -> & Hl & Hg & Ha & _ & _ & Ht & _)
  end.
  exists w2. split; [reflexivity |].
  rewrite Ht, Ha, Hg, Hl, length_app. cbn. repeat split. lia.
Qed.



(** A pass only runs when the target is not zero. *)
Lemma drive_cond_true_nonzero (w : World) :
  ltb (Qabs (rightMotor_angle E (angle_reads w))) (Qabs rotation)
  && ltb (stopwatch E (timer_reads w)) (time * 1000) = true ->
  ~ rotation == 0.
Proof.
  intros H. apply andb_true_iff in H. destruct H as [H _].
  apply ltb_true in H. intros Hz. apply Qabs_zero_iff in Hz.
  pose proof (Qabs_nonneg (rightMotor_angle E (angle_reads w))). lra.
Qed.



Lemma drive_loop_no_raise (fuel : nat) :
  forall w e w',
    while fuel (fun _ : unit => drive_cond E rotation time)
      (fun _ => drive_body E sin startDegrees rotation speed kSteering) tt w
    <> Raised e w'.
Proof.
  induction fuel as [| fuel IH]; intros w e w' H.
  - discriminate H.
  - cbn [while] in H.
    destruct (drive_cond_run E rotation time w) as (w1 & Hc & _).
    unfold bind at 1 in H. rewrite Hc in H.
    destruct (_ && _) eqn:Hb.
    + destruct (drive_body_then w1 (drive_cond_true_nonzero w Hb)) as (w2 & Hbody & _).
      unfold bind at 1 in H. rewrite Hbody in H. exact (IH w2 e w' H).
    + discriminate H.
Qed.

End DriveLoop.

Lemma drive_shape (E : Env) (sin : Q -> Q) (fuel : nat)
    (distance speed time kSteering : Q) (w : World) :
  exists w0 rotation speed',
    Qabs rotation == rotation_target distance /\
    drive E sin fuel distance speed time kSteering w =
      (while fuel (fun _ : unit => drive_cond E rotation time)
         (fun _ => drive_body E sin (gyro_angle E (gyro_reads w)) rotation speed'
                     kSteering) tt ;; stop HOLD)%robot w0 /\
    timer_reads w0 = timer_reads w /\ angle_reads w0 = angle_reads w /\
    gyro_reads w0 = S (gyro_reads w) /\
    length (log w0) = S (length (log w)).
Proof.
  unfold drive. unfold bind at 1. unfold gyro_read at 1.
  destruct (ltb distance 0).
  - unfold bind at 1. unfold Motor_reset_angle at 1.
    eexists. exists (Qabs distance * (519 # 10)), (- speed).
    split; [apply Qabs_rotation |]. split; [reflexivity |].
    cbn. rewrite length_app. cbn. repeat split. lia.
  - unfold bind at 1. unfold Motor_reset_angle at 1.
    eexists. exists (distance * (519 # 10)), speed.
    split; [apply Qabs_rotation |]. split; [reflexivity |].
    cbn. rewrite length_app. cbn. repeat split. lia.
Qed.

(** X10. [drive] and [drive2Line] never raise: the division by the
    rotation target sits in the loop body, and the loop condition
    [abs(angle) < abs(rotation)] keeps the body from running when the
    target is zero.  This holds for every distance, speed, timeout and gain,
    and for every reading of the devices. *)
Theorem drive_never_raises (E : Env) (sin : Q -> Q) (fuel : nat) :
  (forall distance speed time kSteering,
      no_raise (drive E sin fuel distance speed time kSteering)) /\
  (forall speed distanceBefore distanceAfter useRightSensor,
      no_raise (drive2Line E sin fuel speed distanceBefore distanceAfter useRightSensor)).
Proof.
  assert (Hd : forall distance speed time kSteering,
             no_raise (drive E sin fuel distance speed time kSteering)).
  { intros distance speed time kSteering w e w' H.
    destruct (drive_shape E sin fuel distance speed time kSteering w)
      as (w0 & rotation & speed' & Hrot & Heq & _).
    rewrite Heq in H. unfold bind at 1 in H.
    match type of H with
    | context [while fuel ?c ?b tt w0] =>
        pose proof (drive_loop_no_raise E sin (gyro_angle E (gyro_reads w)) rotation
                      speed' kSteering time fuel w0) as Hl;
        destruct (while fuel c b tt w0) as [[] w1 | e1 w1 | w1]
    end.
    - destruct (stop_run HOLD w1) as (w2 & Hs & _). rewrite Hs in H. discriminate H.
    - exact (Hl e1 w1 eq_refl).
    - discriminate H. }
  split; [exact Hd |].
  intros speed distanceBefore distanceAfter useRightSensor. unfold drive2Line.
  apply no_raise_bind; [apply Hd | intros _].
  apply no_raise_bind; [apply no_raise_returns, returns_moveSteering | intros _].
  apply no_raise_bind; [apply no_raise_waitForLine | intros _].
  apply no_raise_bind; [apply no_raise_returns, returns_stop | intros _].
  apply Hd.
Qed.

Lemma Qabs_opp_pos (d : Q) : 0 < d -> Qabs (- d) = d.
Proof.
  destruct d as [n p]. unfold Qlt, Qopp, Qabs. cbn. intros H.
  f_equal. lia.
Qed.

(** X11. Driving a negative distance is driving the same distance forwards
    with the speed negated: for [d > 0], [drive(-d, speed, ...)] behaves
    exactly as [drive(d, -speed, ...)]. *)
Theorem drive_negative_distance (E : Env) (sin : Q -> Q) (fuel : nat)
    (d speed time kSteering : Q) (w : World) :
  0 < d ->
  drive E sin fuel (- d) speed time kSteering w
  = drive E sin fuel d (- speed) time kSteering w.
Proof.
  intros Hd. unfold drive.
  assert (H1 : ltb (- d) 0 = true) by (apply ltb_true; lra).
  assert (H2 : ltb d 0 = false) by (apply ltb_false; lra).
  rewrite H1, H2, (Qabs_opp_pos d Hd). reflexivity.
Qed.

Lemma drive_negative_distance_bench :
  0 < 10 /\
  drive bench_rolling sin_clamp 9 (- (10)) 200 20 1 (Robot_init bench_rolling None)
  = drive bench_rolling sin_clamp 9 10 (- (200)) 20 1 (Robot_init bench_rolling None).
Proof.
  assert (H : 0 < 10) by reflexivity.
  exact (conj H (drive_negative_distance bench_rolling sin_clamp 9 10 200 20 1
                   (Robot_init bench_rolling None) H)).
Defined.



Lemma sin_clamp_bounds (x : Q) : -1 <= sin_clamp x /\ sin_clamp x <= 1.
Proof.
  unfold sin_clamp.
  destruct (Qlt_le_dec x (-1)); [split; lra |].
  destruct (Qlt_le_dec 1 x); split; lra.
Qed.

Lemma copysign_cases (x y : Q) :
  (y < 0 /\ copysign x y = - Qabs x) \/ (0 <= y /\ copysign x y = Qabs x).
Proof. unfold copysign. destruct (Qlt_le_dec y 0); [left | right]; split; auto. Qed.

Lemma Qabs_cases (x : Q) : (x < 0 /\ Qabs x == - x) \/ (0 <= x /\ Qabs x == x).
Proof.
  destruct (Qlt_le_dec x 0) as [H | H]; [left | right]; split; try assumption.
  - apply Qabs_neg. lra.
  - apply Qabs_pos. assumption.
Qed.

(** X13. The ramp of [drive] only works from speed 101 upwards.  With
    [sin] within [-1, 1], a pass of the loop hands [moveSteering] the base
    speed [sin(...) * speed + copysign(100, speed)] when [|speed| >= 101],
    but for [|speed| <= 99] the cap [|speed| - 100] is negative and always
    wins the [min]: the base speed is then
    [(|speed| - 100) * speed + copysign(100, speed)] whatever the progress,
    which for [2 <= speed <= 98] is at most [-96], a command to run
    backwards. *)
Theorem drive_ramp_regimes (E : Env) (sin : Q -> Q)
    (startDegrees rotation speed kSteering : Q) (w : World) :
  (forall x, -1 <= sin x /\ sin x <= 1) ->
  ~ rotation == 0 ->
  exists w2 st v,
    drive_body E sin startDegrees rotation speed kSteering w = Done tt w2 /\
    log w2 = log w ++ [CRun LeftMotor (leftMotorSpeed st v);
                       CRun RightMotor (rightMotorSpeed st v)] /\
    (Qabs speed <= 99 -> v == (Qabs speed - 100) * speed + copysign 100 speed) /\
    (2 <= speed -> speed <= 98 -> v <= -96) /\
    (101 <= Qabs speed ->
     v == sin (Qabs (rightMotor_angle E (angle_reads w)) / rotation * (314 # 100))
          * speed + copysign 100 speed).
Proof.
  intros Hsin Hnz. unfold drive_body, bind, gyro_read, rightMotor_read.
  rewrite pydiv_nonzero by exact Hnz. cbn [angle_reads].
  match goal with
  | |- context [moveSteering ?a ?b ?w0] =>
      destruct (moveSteering_run a b w0) as (w2 & -> & Hl & _);
      exists w2, a, b
  end.
  split; [reflexivity |]. split; [exact Hl |].
  set (x := Qabs (rightMotor_angle E (angle_reads w)) / rotation * (314 # 100)).
  destruct (Hsin x) as [Hlo Hhi].
  assert (Hlow : Qabs speed <= 99 ->
                 pymin (sin x) (Qabs speed - 100) == Qabs speed - 100).
  { intros Hs.
    destruct (pymin_cases (sin x) (Qabs speed - 100)) as [[_ ->] | [Hc ->]];
      [reflexivity | lra]. }
  split; [| split].
  - intros Hs. rewrite (Hlow Hs). reflexivity.
  - intros H2 H98.
    assert (Ha : Qabs speed == speed) by (apply Qabs_pos; lra).
    assert (Hs : Qabs speed <= 99) by lra.
    rewrite (Hlow Hs), Ha.
    destruct (copysign_cases 100 speed) as [[Hneg _] | [_ ->]]; [lra |].
    change (Qabs 100) with 100. nra.
  - intros Hs.
    destruct (pymin_cases (sin x) (Qabs speed - 100)) as [[Hc _] | [_ ->]];
      [lra | reflexivity].
Qed.

Lemma drive_ramp_regimes_bench :
  (forall x, -1 <= sin_clamp x /\ sin_clamp x <= 1) /\
  ~ 519 == 0 /\ Qabs 50 <= 99 /\ 2 <= 50 /\ 50 <= 98 /\ 101 <= Qabs 200 /\
  (exists w2 st v,
      drive_body bench sin_clamp 0 519 50 1 bench_robot = Done tt w2 /\
      log w2 = log bench_robot ++ [CRun LeftMotor (leftMotorSpeed st v);
                                   CRun RightMotor (rightMotorSpeed st v)] /\
      v == (Qabs 50 - 100) * 50 + copysign 100 50 /\
      v <= -96) /\
  (exists w2 st v,
      drive_body bench sin_clamp 0 519 200 1 bench_robot = Done tt w2 /\
      log w2 = log bench_robot ++ [CRun LeftMotor (leftMotorSpeed st v);
                                   CRun RightMotor (rightMotorSpeed st v)] /\
      v == sin_clamp (Qabs (rightMotor_angle bench (angle_reads bench_robot)) / 519
                      * (314 # 100)) * 200 + copysign 100 200).
Proof.
  assert (Hnz : ~ 519 == 0) by (intro C; discriminate C).
  assert (H99 : Qabs 50 <= 99) by (intro C; discriminate C).
  assert (H2 : 2 <= 50) by (intro C; discriminate C).
  assert (H98 : 50 <= 98) by (intro C; discriminate C).
  assert (H101 : 101 <= Qabs 200) by (intro C; discriminate C).
  destruct (drive_ramp_regimes bench sin_clamp 0 519 50 1 bench_robot
              sin_clamp_bounds Hnz)
    as (w2 & st & v & Hrun & Hlog & Hcap & Hback & _).
  destruct (drive_ramp_regimes bench sin_clamp 0 519 200 1 bench_robot
              sin_clamp_bounds Hnz)
    as (w2' & st' & v' & Hrun' & Hlog' & _ & _ & Hsin').
  refine (conj sin_clamp_bounds (conj Hnz (conj H99 (conj H2 (conj H98
            (conj H101 (conj _ _))))))).
  - exists w2, st, v.
    exact (conj Hrun (conj Hlog (conj (Hcap H99) (Hback H2 H98)))).
  - exists w2', st', v'.
    exact (conj Hrun' (conj Hlog' (Hsin' H101))).
Defined.

(** ** Further properties: turn *)

(** X14. Every pass of [turn] is a spot turn: with steering 100 the two
    wheels get opposite speeds [v] and [-v], where
    [v = speed * error * 0.01 + copysign(20, error)] and [error] is the gyro
    reading of the pass minus the target.  For a speed that is not negative
    the command never drops below 20 in magnitude and has the sign of the
    error (positive for a zero error). *)
Theorem turn_pass_spins (E : Env) (angle speed : Q) (w : World) :
  0 <= speed ->
  let error := gyro_angle E (gyro_reads w) - angle in
  let v := speed * error * (1 # 100) + copysign 20 error in
  exists w2,
    turn_body E angle speed w = Done tt w2 /\
    log w2 = log w ++ [CRun LeftMotor (leftMotorSpeed 100 v);
                       CRun RightMotor (rightMotorSpeed 100 v)] /\
    leftMotorSpeed 100 v == v /\
    rightMotorSpeed 100 v == - v /\
    20 <= Qabs v /\
    ((0 <= error /\ 20 <= v) \/ (error < 0 /\ v <= -20)).
Proof.
  intros Hs error v. unfold turn_body, bind, gyro_read. fold error. fold v.
  match goal with
  | |- context [moveSteering 100 v ?w0] =>
      destruct (moveSteering_run 100 v w0) as (w2 & -> & Hl & _)
  end.
  exists w2. split; [reflexivity |]. split; [exact Hl |].
  split; [| split].
  - unfold leftMotorSpeed. vm_compute (pymin 1 ((2 # 100) * 100 + 1)). ring.
  - unfold rightMotorSpeed. vm_compute (pymin 1 (- (2 # 100) * 100 + 1)). ring.
  - destruct (Qlt_le_dec error 0) as [He | He].
    + assert (Hv : v <= -20).
      { unfold v. destruct (copysign_cases 20 error) as [[_ ->] | [Hn _]]; [| lra].
        change (Qabs 20) with 20. nra. }
      split; [rewrite Qabs_neg by lra; lra | right; split; assumption].
    + assert (Hv : 20 <= v).
      { unfold v. destruct (copysign_cases 20 error) as [[Hn _] | [_ ->]]; [lra |].
        change (Qabs 20) with 20. nra. }
      split; [rewrite Qabs_pos by lra; lra | left; split; assumption].
Qed.

Lemma turn_pass_spins_bench :
  0 <= 300 /\
  exists w2,
    turn_body bench_fast 90 300 bench_fast_robot = Done tt w2 /\
    log w2 = log bench_fast_robot ++
               [CRun LeftMotor (leftMotorSpeed 100 (300 * (0 - 90) * (1 # 100)
                                                    + copysign 20 (0 - 90)));
                CRun RightMotor (rightMotorSpeed 100 (300 * (0 - 90) * (1 # 100)
                                                      + copysign 20 (0 - 90)))] /\
    leftMotorSpeed 100 (300 * (0 - 90) * (1 # 100) + copysign 20 (0 - 90))
      == 300 * (0 - 90) * (1 # 100) + copysign 20 (0 - 90) /\
    rightMotorSpeed 100 (300 * (0 - 90) * (1 # 100) + copysign 20 (0 - 90))
      == - (300 * (0 - 90) * (1 # 100) + copysign 20 (0 - 90)) /\
    20 <= Qabs (300 * (0 - 90) * (1 # 100) + copysign 20 (0 - 90)) /\
    ((0 <= 0 - 90 /\ 20 <= 300 * (0 - 90) * (1 # 100) + copysign 20 (0 - 90)) \/
     (0 - 90 < 0 /\ 300 * (0 - 90) * (1 # 100) + copysign 20 (0 - 90) <= -20)).
Proof.
  assert (H : 0 <= 300) by (intro C; discriminate C).
  exact (conj H (turn_pass_spins bench_fast 90 300 bench_fast_robot H)).
Defined.

(** ** Further properties: the line followers *)










Section FollowForTime.

Variable E : Env.
Variable i : SensorId.
Variables ks speed time : Q.

Lemma timed_out_shift (limit : Q) (w w2 : World) (j : nat) :
  timer_reads w2 = S (timer_reads w) ->
  timed_out E limit w2 j = timed_out E limit w (S j).
Proof.
  intros H. unfold timed_out. rewrite H, Nat.add_succ_r. reflexivity.
Qed.



End FollowForTime.



Section FollowToLine.

Variable E : Env.
Variable i : SensorId.
Variables ks speed : Q.



End FollowToLine.




(** ** Further properties: calibrate *)

Lemma returns_ret {A} (a : A) : returns (ret a).
Proof. intros w. exists a, w. reflexivity. Qed.

Lemma returns_bind {A B} (m : M A) (k : A -> M B) :
  returns m -> (forall a, returns (k a)) -> returns (bind m k).
Proof.
  intros Hm Hk w. destruct (Hm w) as (a & w1 & H1).
  destruct (Hk a w1) as (b & w2 & H2).
  exists b, w2. unfold bind. rewrite H1. exact H2.
Qed.

Lemma returns_if {A} (b : bool) (m1 m2 : M A) :
  returns m1 -> returns m2 -> returns (if b then m1 else m2).
Proof. destruct b; auto. Qed.

Lemma returns_light (E : Env) (i : SensorId) : returns (light E i).
Proof. intros w. rewrite light_run. eexists. eexists. reflexivity. Qed.

Lemma returns_calibrate_body (E : Env) (b : Bounds) : returns (calibrate_body E b).
Proof.
  unfold calibrate_body.
  repeat first [ apply returns_light
               | apply returns_ret
               | apply returns_if
               | apply returns_bind; [| intros] ].
Qed.

Lemma calibrate_body_then (E : Env) (b : Bounds) (w : World) :
  exists b' w2,
    calibrate_body E b w = Done b' w2 /\ calibrate_frame w2 = calibrate_frame w.
Proof.
  destruct (returns_calibrate_body E b w) as (b' & w2 & H).
  exists b', w2. split; [exact H |].
  assert (Hk : keeps calibrate_frame (calibrate_body E b)) by keep.
  specialize (Hk w). rewrite H in Hk. exact Hk.
Qed.

Lemma calibrate_frame_fields (w w2 : World) :
  calibrate_frame w2 = calibrate_frame w ->
  timer_reads w2 = timer_reads w /\ log w2 = log w /\ drive_modes w2 = drive_modes w.
Proof.
  unfold calibrate_frame. intros H.
  pose proof (f_equal (fun p => fst (fst p)) H) as H1.
  pose proof (f_equal (fun p => snd (fst p)) H) as H2.
  pose proof (f_equal snd H) as H3.
  cbn [fst snd] in H1, H2, H3. repeat split; assumption.
Qed.

Section CalibrateLoop.

Variable E : Env.

Lemma calibrate_cond_run (w : World) :
  exists w1,
    (t <- timer_time E ;; ret (ltb t 5000)) w
      = Done (ltb (stopwatch E (timer_reads w)) 5000) w1 /\
    timer_reads w1 = S (timer_reads w) /\ log w1 = log w /\
    drive_modes w1 = drive_modes w.
Proof. eexists. split; [reflexivity |]. repeat split. Qed.

Lemma calibrate_loop (k : nat) :
  forall (fuel : nat) (w : World) (b : Bounds),
    (forall j, (j < k)%nat -> ~ timed_out E 5000 w j) ->
    timed_out E 5000 w k ->
    (k < fuel)%nat ->
    exists b' w',
      while fuel (fun _ => t <- timer_time E ;; ret (ltb t 5000))
        (calibrate_body E) b w = Done b' w' /\
      timer_reads w' = (S k + timer_reads w)%nat /\ log w' = log w /\
      drive_modes w' = drive_modes w.
Proof.
  induction k as [| k IH]; intros fuel w b Hbefore Hk Hfuel;
    (destruct fuel as [| fuel]; [lia |]); cbn [while];
    destruct (calibrate_cond_run w) as (w1 & Hc & Ht1 & Hl1 & Hm1);
    unfold bind at 1; rewrite Hc.
  - unfold timed_out in Hk. cbn [Nat.add] in Hk.
    rewrite (proj2 (ltb_false _ _) Hk).
    exists b, w1. split; [reflexivity |]. auto.
  - assert (H0 : ltb (stopwatch E (timer_reads w)) 5000 = true).
    { apply ltb_true. apply Qnot_le_lt. apply (Hbefore 0%nat). lia. }
    rewrite H0.
    destruct (calibrate_body_then E b w1) as (b1 & w2 & Hbody & Hf).
    destruct (calibrate_frame_fields w1 w2 Hf) as (Ht2 & Hl2 & Hm2).
    unfold bind at 1. rewrite Hbody.
    assert (Ht : timer_reads w2 = S (timer_reads w)) by congruence.
    destruct (IH fuel w2 b1) as (b' & w' & Hrun & Ht' & Hl' & Hm').
    + intros j Hj. rewrite (timed_out_shift E _ w w2 j Ht). apply Hbefore. lia.
    + rewrite (timed_out_shift E _ w w2 k Ht). exact Hk.
    + lia.
    + exists b', w'. split; [exact Hrun |].
      rewrite Ht', Hl', Hm', Ht, Hl2, Hl1, Hm2, Hm1. repeat split. lia.
Qed.

Variables r l : Q.
Hypothesis Hright : forall n, sum3 (rgb E RightSensor n) = r.
Hypothesis Hleft : forall n, sum3 (rgb E LeftSensor n) = l.

Lemma steady_pass_run (b : Bounds) (w : World) :
  exists w2,
    calibrate_body E b w = Done (steady_pass r l b) w2 /\
    calibrate_frame w2 = calibrate_frame w.
Proof.
  destruct (calibrate_body_steady E b w r l) as (w2 & H).
  - intros j _. apply Hright.
  - intros j _. apply Hleft.
  - exists w2. split; [exact H |].
    assert (Hk : keeps calibrate_frame (calibrate_body E b)) by keep.
    specialize (Hk w). rewrite H in Hk. exact Hk.
Qed.

Lemma ltb_irrefl (x : Q) : ltb x x = false.
Proof. apply ltb_false. lra. Qed.

(** A second steady pass changes nothing. *)
Lemma steady_pass_idem (b : Bounds) :
  steady_pass r l (steady_pass r l b) = steady_pass r l b.
Proof.
  unfold steady_pass. cbn [bRightHigh bRightLow bLeftHigh bLeftLow]. unfold gtb.
  destruct (ltb (bRightHigh b) r) eqn:C1; destruct (ltb r (bRightLow b)) eqn:C2;
    destruct (ltb (bLeftHigh b) l) eqn:C3; destruct (ltb l (bLeftLow b)) eqn:C4;
    rewrite ?ltb_irrefl, ?C1, ?C2, ?C3, ?C4; reflexivity.
Qed.

Lemma steady_loop (k : nat) :
  forall (fuel : nat) (w : World) (b : Bounds),
    (forall j, (j < k)%nat -> ~ timed_out E 5000 w j) ->
    timed_out E 5000 w k ->
    (k < fuel)%nat ->
    exists w',
      while fuel (fun _ => t <- timer_time E ;; ret (ltb t 5000))
        (calibrate_body E) b w
      = Done (match k with O => b | S _ => steady_pass r l b end) w'.
Proof.
  induction k as [| k IH]; intros fuel w b Hbefore Hk Hfuel;
    (destruct fuel as [| fuel]; [lia |]); cbn [while];
    destruct (calibrate_cond_run w) as (w1 & Hc & Ht1 & _);
    unfold bind at 1; rewrite Hc.
  - unfold timed_out in Hk. cbn [Nat.add] in Hk.
    rewrite (proj2 (ltb_false _ _) Hk). exists w1. reflexivity.
  - assert (H0 : ltb (stopwatch E (timer_reads w)) 5000 = true).
    { apply ltb_true. apply Qnot_le_lt. apply (Hbefore 0%nat). lia. }
    rewrite H0.
    destruct (steady_pass_run b w1) as (w2 & Hbody & Hf).
    destruct (calibrate_frame_fields w1 w2 Hf) as (Ht2 & _).
    unfold bind at 1. rewrite Hbody.
    assert (Ht : timer_reads w2 = S (timer_reads w)) by congruence.
    destruct (IH fuel w2 (steady_pass r l b)) as (w' & Hrun).
    + intros j Hj. rewrite (timed_out_shift E _ w w2 j Ht). apply Hbefore. lia.
    + rewrite (timed_out_shift E _ w w2 k Ht). exact Hk.
    + lia.
    + exists w'. rewrite Hrun. destruct k; [reflexivity |].
      rewrite steady_pass_idem. reflexivity.
Qed.

End CalibrateLoop.

(** X17. [calibrate] drives for the window and nothing else: it returns at
    the first loop check that reads 5000 ms or more, and whatever the
    sensors read it has then issued exactly four motor commands, [run] at
    125 for both wheels before the loop and the two [stop(HOLD)] after it,
    and has written the calibration file. *)
Theorem calibrate_runs_for_the_window (E : Env) (fuel k : nat) (w : World) :
  (forall j, (j < k)%nat -> ~ timed_out E 5000 w j) ->
  timed_out E 5000 w k ->
  (k < fuel)%nat ->
  exists w' c,
    calibrate E fuel w = Done tt w' /\
    timer_reads w' = (S k + timer_reads w)%nat /\
    log w' = log w ++ [CRun LeftMotor (leftMotorSpeed 0 125);
                       CRun RightMotor (rightMotorSpeed 0 125);
                       CStop RightMotor HOLD; CStop LeftMotor HOLD] /\
    leftMotorSpeed 0 125 == 125 /\ rightMotorSpeed 0 125 == 125 /\
    sensorpoints w' = Some c.
Proof.
  intros Hbefore Hk Hfuel. unfold calibrate.
  destruct (moveSteering_run 0 125 w)
    as (w1 & Hm & Hl1 & _ & _ & _ & _ & Ht1 & _).
  unfold bind at 1. rewrite Hm.
  destruct (calibrate_loop E k fuel w1 (mkBounds 40 70 40 70))
    as (b' & w2 & Hrun & Ht2 & Hl2 & _).
  - intros j Hj. unfold timed_out. rewrite Ht1. apply Hbefore, Hj.
  - unfold timed_out. rewrite Ht1. exact Hk.
  - exact Hfuel.
  - unfold bind at 1. rewrite Hrun.
    destruct (stop_run HOLD w2)
      as (w3 & Hs & Hl3 & _ & _ & _ & _ & _ & _ & _ & Ht3 & _).
    unfold bind at 1. rewrite Hs. unfold write_sensorpoints.
    eexists. eexists. split; [reflexivity |]. cbn.
    rewrite Ht3, Ht2, Ht1, Hl3, Hl2, Hl1, <- app_assoc. cbn.
    repeat split.
Qed.

Lemma calibrate_runs_for_the_window_bench :
  exists w' c,
    calibrate bench 6 bench_robot = Done tt w' /\
    timer_reads w' = (6 + timer_reads bench_robot)%nat /\
    log w' = log bench_robot ++ [CRun LeftMotor (leftMotorSpeed 0 125);
                                 CRun RightMotor (rightMotorSpeed 0 125);
                                 CStop RightMotor HOLD; CStop LeftMotor HOLD] /\
    leftMotorSpeed 0 125 == 125 /\ rightMotorSpeed 0 125 == 125 /\
    sensorpoints w' = Some c.
Proof.
  apply (calibrate_runs_for_the_window bench 6 5 bench_robot).
  - intros j Hj H. unfold timed_out in H. cbn [stopwatch bench] in H.
    change 5000 with (inject_Z 5000) in H. rewrite <- Zle_Qle in H.
    change (timer_reads bench_robot) with 0%nat in H. lia.
  - intro H; discriminate H.
  - lia.
Defined.

(** X18. When each sensor returns one and the same value at every read,
    [calibrate] records for each side the larger of the reading and the high
    seed 40 as its high bound and the smaller of the reading and the low
    seed 70 as its low bound, provided the window held at least one pass;
    with no pass at all it records the seeds, lows 70 and highs 40. *)
Theorem calibrate_constant_readings (E : Env) (fuel k : nat) (r l : Q) (w : World) :
  (forall n, sum3 (rgb E RightSensor n) = r) ->
  (forall n, sum3 (rgb E LeftSensor n) = l) ->
  (forall j, (j < k)%nat -> ~ timed_out E 5000 w j) ->
  timed_out E 5000 w k ->
  (k < fuel)%nat ->
  exists w',
    calibrate E fuel w = Done tt w' /\
    sensorpoints w' =
      Some (match k with
            | O => mkCalibration 70 70 40 40
            | S _ => mkCalibration (if ltb l 70 then l else 70)
                                   (if ltb r 70 then r else 70)
                                   (if gtb l 40 then l else 40)
                                   (if gtb r 40 then r else 40)
            end).
Proof.
  intros Hr Hl Hbefore Hk Hfuel. unfold calibrate.
  destruct (moveSteering_run 0 125 w)
    as (w1 & Hm & _ & _ & _ & _ & _ & Ht1 & _).
  unfold bind at 1. rewrite Hm.
  destruct (steady_loop E r l Hr Hl k fuel w1 (mkBounds 40 70 40 70))
    as (w2 & Hrun).
  - intros j Hj. unfold timed_out. rewrite Ht1. apply Hbefore, Hj.
  - unfold timed_out. rewrite Ht1. exact Hk.
  - exact Hfuel.
  - unfold bind at 1. rewrite Hrun.
    destruct (stop_run HOLD w2) as (w3 & Hs & _).
    unfold bind at 1. rewrite Hs. unfold write_sensorpoints.
    eexists. split; [reflexivity |]. cbn [sensorpoints].
    destruct k; reflexivity.
Qed.

(** With both sensors stuck at 60 and five passes in the window, both
    bounds of both sides become 60. *)
Lemma calibrate_constant_readings_bench :
  exists w',
    calibrate bench_grey 6 (Robot_init bench_grey None) = Done tt w' /\
    sensorpoints w' =
      Some (mkCalibration (if ltb (0 + 20 + 20 + 20) 70 then 0 + 20 + 20 + 20 else 70)
                          (if ltb (0 + 20 + 20 + 20) 70 then 0 + 20 + 20 + 20 else 70)
                          (if gtb (0 + 20 + 20 + 20) 40 then 0 + 20 + 20 + 20 else 40)
                          (if gtb (0 + 20 + 20 + 20) 40 then 0 + 20 + 20 + 20 else 40)).
Proof.
  apply (calibrate_constant_readings bench_grey 6 5 (0 + 20 + 20 + 20) (0 + 20 + 20 + 20)
           (Robot_init bench_grey None)).
  - intros n. reflexivity.
  - intros n. reflexivity.
  - intros j Hj H. unfold timed_out in H. cbn [stopwatch bench_grey bench] in H.
    change 5000 with (inject_Z 5000) in H. rewrite <- Zle_Qle in H.
    change (timer_reads (Robot_init bench_grey None)) with 0%nat in H. lia.
  - intro H; discriminate H.
  - lia.
Defined.

(** ** Further properties: drive2Line and the devices each operation reads *)

Lemma drive_done_or_looping (E : Env) (sin : Q -> Q) (fuel : nat)
    (distance speed time kSteering : Q) (w : World) :
  (exists w', drive E sin fuel distance speed time kSteering w = Done tt w') \/
  (exists w', drive E sin fuel distance speed time kSteering w = Looping w').
Proof.
  destruct (drive_shape E sin fuel distance speed time kSteering w)
    as (w0 & rotation & speed' & Hrot & -> & _).
  unfold bind.
  pose proof (drive_loop_no_raise E sin (gyro_angle E (gyro_reads w)) rotation
                speed' kSteering time fuel w0) as Hl.
  destruct (while fuel _ _ tt w0) as [[] w1 | e1 w1 | w1].
  - left. destruct (stop_run HOLD w1) as (w2 & Hs & _). exists w2. exact Hs.
  - exfalso. exact (Hl e1 w1 eq_refl).
  - right. exists w1. reflexivity.
Qed.

(** X19. The line search of [drive2Line] has no timeout: when the stop
    sensor never reads white, [drive2Line] never returns, whatever the two
    distances, the speed and the readings of the other devices. *)
Theorem drive2Line_blocks_without_line (E : Env) (sin : Q -> Q)
    (speed distanceBefore distanceAfter : Q) (useRightSensor : bool) (w : World) :
  (forall j, white_at E (if useRightSensor then RightSensor else LeftSensor) w j = false) ->
  forall fuel, exists w',
    drive2Line E sin fuel speed distanceBefore distanceAfter useRightSensor w = Looping w'.
Proof.
  intros Hnever fuel. unfold drive2Line.
  set (i := if useRightSensor then RightSensor else LeftSensor) in *.
  unfold bind at 1.
  destruct (drive_done_or_looping E sin fuel distanceBefore speed 20 1 w)
    as [(w1 & Hd) | (w1 & Hd)]; rewrite Hd; [| exists w1; reflexivity].
  assert (Hth1 : thresholds w1 = thresholds w).
  { assert (Hk : keeps thresholds (drive E sin fuel distanceBefore speed 20 1)) by keep.
    specialize (Hk w). rewrite Hd in Hk. exact Hk. }
  assert (Hr1 : light_reads w1 = light_reads w).
  { assert (Hk : keeps light_reads (drive E sin fuel distanceBefore speed 20 1)) by keep.
    specialize (Hk w). rewrite Hd in Hk. exact Hk. }
  destruct (moveSteering_then 0 ((5 # 10) * speed) w1)
    as (w2 & Hm & _ & Hth2 & Hr2 & _).
  unfold bind at 1. rewrite Hm. unfold bind at 1.
  rewrite (waitForLine_no_white E i w2 fuel).
  - eexists. reflexivity.
  - intros j.
    rewrite (proj1 (classify_same E i w1 w2 j Hth2 Hr2)).
    rewrite (proj1 (classify_same E i w w1 j Hth1 Hr1)).
    apply Hnever.
Qed.

Lemma drive2Line_blocks_without_line_bench :
  exists w',
    drive2Line bench_dark sin_clamp 30 200 1 1 false bench_dark_robot = Looping w'.
Proof.
  apply (drive2Line_blocks_without_line bench_dark sin_clamp 200 1 1 false
           bench_dark_robot).
  intros j. reflexivity.
Defined.

(** X20. Which devices an operation consults.  [drive], [turn], [stop] and
    [moveSteering] never read a light sensor; the line followers,
    [waitForLine], [turn2Line] and [calibrate] never read the gyro or the
    wheel angle; and [lineFollow2Line], [waitForLine] and [turn2Line] never
    read a stopwatch. *)
Theorem devices_left_unread (E : Env) (sin : Q -> Q) (fuel : nat) :
  ((forall distance speed time kSteering,
       keeps light_reads (drive E sin fuel distance speed time kSteering)) /\
   (forall angle speed time, keeps light_reads (turn E fuel angle speed time)) /\
   (forall brakeType, keeps light_reads (stop brakeType)) /\
   (forall steering speed, keeps light_reads (moveSteering steering speed))) /\
  ((forall speed rightSide useRightSensor,
       keeps motion_reads (lineFollow2Line E fuel speed rightSide useRightSensor)) /\
   (forall speed time rightSide useRightSensor,
       keeps motion_reads (lineFollow4Time E fuel speed time rightSide useRightSensor)) /\
   (forall i, keeps motion_reads (waitForLine E fuel i)) /\
   (forall speed useRightSensor time,
       keeps motion_reads (turn2Line E fuel speed useRightSensor time)) /\
   keeps motion_reads (calibrate E fuel)) /\
  ((forall speed rightSide useRightSensor,
       keeps timer_reads (lineFollow2Line E fuel speed rightSide useRightSensor)) /\
   (forall i, keeps timer_reads (waitForLine E fuel i)) /\
   (forall speed useRightSensor time,
       keeps timer_reads (turn2Line E fuel speed useRightSensor time))).
Proof.
  repeat match goal with |- _ /\ _ => split end; intros; keep.
Qed.

Lemma lineFollow2Line_body_log (E : Env) (i : SensorId) (ks speed x : Q) (w : World) :
  exists w2,
    lineFollow2Line_body E i ks speed x w
      = Done (line (getSensor i (robot w)) - light_at E i w 0) w2 /\
    log w2 = log w ++
      [CRun LeftMotor
         (leftMotorSpeed
            (lineFollow2Line_steering (line (getSensor i (robot w)))
               (light_at E i w 0) x ks) speed);
       CRun RightMotor
         (rightMotorSpeed
            (lineFollow2Line_steering (line (getSensor i (robot w)))
               (light_at E i w 0) x ks) speed)].
Proof.
  unfold lineFollow2Line_body, light, moveSteering, bind, threshold, rgb_read,
    Motor_run, ret, light_at.
  eexists. split; [reflexivity |].
  destruct i; cbn; rewrite <- app_assoc; reflexivity.
Qed.

Lemma lineFollow4Time_body_log (E : Env) (i : SensorId) (ks speed x : Q) (w : World) :
  exists w4,
    lineFollow4Time_body E i ks speed x w
      = Done (line (getSensor i (robot w)) - light_at E i w 0) w4 /\
    log w4 = log w ++
      [CRun LeftMotor
         (leftMotorSpeed
            (lineFollow4Time_steering (line (getSensor i (robot w)))
               (light_at E i w 0) x ks) speed);
       CRun RightMotor
         (rightMotorSpeed
            (lineFollow4Time_steering (line (getSensor i (robot w)))
               (light_at E i w 0) x ks) speed)].
Proof.
  unfold lineFollow4Time_body, light, moveSteering, bind, threshold, rgb_read,
    Motor_run, ret, light_at.
  eexists. split; [reflexivity |].
  destruct i; cbn; rewrite <- app_assoc; reflexivity.
Qed.

(** X21. The derivative term kicks on the first pass.  Both followers
    start with [lastError = 0], so the first steering command is not the
    proportional [0.25 * error]: [lineFollow2Line] steers by
    [1.5 * error * kSide] and [lineFollow4Time] by [1.45 * error * kSide],
    where [error] is [line] minus the first follow reading. *)
Theorem lineFollow_first_pass (E : Env) (followSensor : SensorId) (rightSide : bool)
    (speed : Q) (w : World) :
  let error := line (getSensor followSensor (robot w)) - light_at E followSensor w 0 in
  exists w2 w4 s2 s4,
    lineFollow2Line_body E followSensor (kSide rightSide) speed 0 w = Done error w2 /\
    log w2 = log w ++ [CRun LeftMotor (leftMotorSpeed s2 speed);
                       CRun RightMotor (rightMotorSpeed s2 speed)] /\
    s2 == (15 # 10) * error * kSide rightSide /\
    lineFollow4Time_body E followSensor (kSide rightSide) speed 0 w = Done error w4 /\
    log w4 = log w ++ [CRun LeftMotor (leftMotorSpeed s4 speed);
                       CRun RightMotor (rightMotorSpeed s4 speed)] /\
    s4 == (145 # 100) * error * kSide rightSide.
Proof.
  intros error.
  destruct (lineFollow2Line_body_log E followSensor (kSide rightSide) speed 0 w)
    as (w2 & H2 & L2).
  destruct (lineFollow4Time_body_log E followSensor (kSide rightSide) speed 0 w)
    as (w4 & H4 & L4).
  exists w2, w4.
  eexists. eexists.
  split; [exact H2 |]. split; [exact L2 |]. split.
  { unfold lineFollow2Line_steering, error. ring. }
  split; [exact H4 |]. split; [exact L4 |].
  unfold lineFollow4Time_steering, error. ring.
Qed.

(** ** Further properties: calibrating, then constructing the robot *)

Lemma Robot_init_sensors (E : Env) (c : CalibrationRecord) :
  leftSensor (robot (Robot_init E (Some c)))
    = LightSensor_init (leftLow c) (leftHigh c) /\
  rightSensor (robot (Robot_init E (Some c)))
    = LightSensor_init (rightLow c) (rightHigh c).
Proof. split; reflexivity. Qed.

Lemma steady_bounds_thresholds (x : Q) :
  let s := LightSensor_init (if ltb x 70 then x else 70) (if gtb x 40 then x else 40) in
  black s <= line s /\ line s <= white s /\
  (40 <= x -> x <= 70 -> black s == x /\ line s == x /\ white s == x).
Proof.
  unfold LightSensor_init, gtb. cbn [black line white].
  destruct (ltb x 70) eqn:C1; destruct (ltb 40 x) eqn:C2;
    try apply ltb_true in C1; try apply ltb_false in C1;
    try apply ltb_true in C2; try apply ltb_false in C2;
    repeat split; intros; lra.
Qed.

(** X22. Calibrating and then constructing the robot from the file.  When
    each sensor returned one and the same value throughout a calibration of
    at least one pass, the robot constructed from the file it wrote has
    [black <= line <= white] on both sensors; but on a surface whose
    reading lies between the seeds 40 and 70 all three thresholds of that
    sensor collapse onto the reading. *)
Theorem calibrate_then_construct (E E2 : Env) (fuel k : nat) (r l : Q) (w : World) :
  (forall n, sum3 (rgb E RightSensor n) = r) ->
  (forall n, sum3 (rgb E LeftSensor n) = l) ->
  (forall j, (j < S k)%nat -> ~ timed_out E 5000 w j) ->
  timed_out E 5000 w (S k) ->
  (S k < fuel)%nat ->
  exists w',
    calibrate E fuel w = Done tt w' /\
    (black (leftSensor (robot (Robot_init E2 (sensorpoints w'))))
       <= line (leftSensor (robot (Robot_init E2 (sensorpoints w')))) /\
     line (leftSensor (robot (Robot_init E2 (sensorpoints w'))))
       <= white (leftSensor (robot (Robot_init E2 (sensorpoints w'))))) /\
    (black (rightSensor (robot (Robot_init E2 (sensorpoints w'))))
       <= line (rightSensor (robot (Robot_init E2 (sensorpoints w')))) /\
     line (rightSensor (robot (Robot_init E2 (sensorpoints w'))))
       <= white (rightSensor (robot (Robot_init E2 (sensorpoints w'))))) /\
    (40 <= l -> l <= 70 ->
     black (leftSensor (robot (Robot_init E2 (sensorpoints w')))) == l /\
     line (leftSensor (robot (Robot_init E2 (sensorpoints w')))) == l /\
     white (leftSensor (robot (Robot_init E2 (sensorpoints w')))) == l) /\
    (40 <= r -> r <= 70 ->
     black (rightSensor (robot (Robot_init E2 (sensorpoints w')))) == r /\
     line (rightSensor (robot (Robot_init E2 (sensorpoints w')))) == r /\
     white (rightSensor (robot (Robot_init E2 (sensorpoints w')))) == r).
Proof.
  intros Hr Hl Hbefore Hk Hfuel. unfold calibrate.
  destruct (moveSteering_run 0 125 w)
    as (w1 & Hm & _ & _ & _ & _ & _ & Ht1 & _).
  unfold bind at 1. rewrite Hm.
  destruct (steady_loop E r l Hr Hl (S k) fuel w1 (mkBounds 40 70 40 70))
    as (w2 & Hrun).
  - intros j Hj. unfold timed_out. rewrite Ht1. apply Hbefore, Hj.
  - unfold timed_out. rewrite Ht1. exact Hk.
  - exact Hfuel.
  - unfold bind at 1. rewrite Hrun.
    destruct (stop_run HOLD w2) as (w3 & Hs & _).
    unfold bind at 1. rewrite Hs. unfold write_sensorpoints.
    eexists. split; [reflexivity |]. cbn [sensorpoints].
    match goal with
    | |- context [Robot_init E2 (Some ?c)] =>
        destruct (Robot_init_sensors E2 c) as [-> ->]
    end.
    cbn [steady_pass bRightHigh bRightLow bLeftHigh bLeftLow
         leftLow leftHigh rightLow rightHigh].
    destruct (steady_bounds_thresholds l) as (L1 & L2 & L3).
    destruct (steady_bounds_thresholds r) as (R1 & R2 & R3).
    repeat split; try assumption; try (apply L3; assumption); apply R3; assumption.
Qed.

(** With both sensors stuck at 60 the recalibrated robot has all its
    thresholds at 60. *)
Lemma calibrate_then_construct_bench :
  40 <= 0 + 20 + 20 + 20 /\ 0 + 20 + 20 + 20 <= 70 /\
  exists w',
    calibrate bench_grey 6 (Robot_init bench_grey None) = Done tt w' /\
    black (leftSensor (robot (Robot_init bench (sensorpoints w')))) == 0 + 20 + 20 + 20 /\
    line (leftSensor (robot (Robot_init bench (sensorpoints w')))) == 0 + 20 + 20 + 20 /\
    white (leftSensor (robot (Robot_init bench (sensorpoints w')))) == 0 + 20 + 20 + 20 /\
    black (rightSensor (robot (Robot_init bench (sensorpoints w')))) == 0 + 20 + 20 + 20 /\
    line (rightSensor (robot (Robot_init bench (sensorpoints w')))) == 0 + 20 + 20 + 20 /\
    white (rightSensor (robot (Robot_init bench (sensorpoints w')))) == 0 + 20 + 20 + 20.
Proof.
  assert (H40 : 40 <= 0 + 20 + 20 + 20) by (intro C; discriminate C).
  assert (H70 : 0 + 20 + 20 + 20 <= 70) by (intro C; discriminate C).
  destruct (calibrate_then_construct bench_grey bench 6 4
              (0 + 20 + 20 + 20) (0 + 20 + 20 + 20) (Robot_init bench_grey None))
    as (w' & Hrun & _ & _ & HL & HR).
  - intros n. reflexivity.
  - intros n. reflexivity.
  - intros j Hj H. unfold timed_out in H. cbn [stopwatch bench_grey bench] in H.
    change 5000 with (inject_Z 5000) in H. rewrite <- Zle_Qle in H.
    change (timer_reads (Robot_init bench_grey None)) with 0%nat in H. lia.
  - intro H; discriminate H.
  - lia.
  - split; [exact H40 |]. split; [exact H70 |].
    exists w'. split; [exact Hrun |].
    destruct (HL H40 H70) as (A1 & A2 & A3).
    destruct (HR H40 H70) as (B1 & B2 & B3).
    repeat split; assumption.
Defined.
